(** * simple-pubsub: the publish/subscribe dispatcher of [src/app.ts]

    A shallow embedding of [PublishSubscribeService] (registry, [publish],
    [subscribe], [unsubscribe]), of the two event classes and of the three
    subscriber classes of the program, followed by the properties of the
    dispatcher.

    Subscriber objects live on the JavaScript heap and are compared by the
    dispatcher through [constructor.name] only; they are modelled as
    references ([ref]) into a fixed object table giving, for every object,
    its class name and the body of its [handle] method.  The only mutable
    field of a subscriber the dispatcher touches, [isPending], is kept in the
    dispatcher state as the set of objects whose flag is [true]. *)

From Stdlib Require Import QArith.
From stdpp Require Import gmap strings list.

Open Scope string_scope.
Open Scope list_scope.
Open Scope nat_scope.

(* [set_solver] clears hypotheses it has already consumed. *)
Set Warnings "-clear-no-such-hyp".

(** ** Interfaces *)

(** [interface IEvent { type(): string; machineId(): string }] *)
Class IEvent (E : Type) := {
  type : E → string;
  machineId : E → string
}.

(** Identity of a subscriber object. *)
Definition ref := nat.

(** [interface IHandler { type: string; handler: ISubscriber }] *)
Record IHandler := { htype : string; handler : ref }.

(** How a call into the dispatcher or into a handler ends: it returns, an
    exception escapes from it, or the call stack is exhausted. *)
Inductive outcome := Normal | Raised | Overflow.

(** ** Handler bodies

    The body of a [handle] method, as far as the dispatcher can tell: a tree
    of the calls it makes on the service it was handed
    ([subscribe], [unsubscribe], [publish]), of its reads of some
    subscriber's [isPending], and of its accesses to the data of the
    collaborators it closes over (type [D]); it ends by returning or by
    throwing.  As in the handlers of the program, a body reads flags and
    leaves their assignment to the dispatcher, and it does not catch what a
    nested [publish] throws. *)
Inductive prog (Event D : Type) :=
| Return
| Throw
| CallSubscribe (t : string) (h : ref) (k : prog Event D)
| CallUnsubscribe (t : string) (h : option ref) (k : prog Event D)
| CallPublish (e : Event) (k : prog Event D)
| ReadPending (h : ref) (k : bool → prog Event D)
| GetData (k : D → prog Event D)
| SetData (d : D) (k : prog Event D).

Arguments Return {Event D}.
Arguments Throw {Event D}.
Arguments CallSubscribe {Event D} t h k.
Arguments CallUnsubscribe {Event D} t h k.
Arguments CallPublish {Event D} e k.
Arguments ReadPending {Event D} h k.
Arguments GetData {Event D} k.
Arguments SetData {Event D} d k.

(** The handler makes no re-entrant [publish] call. *)
Fixpoint no_publish {Event D} (p : prog Event D) : Prop :=
  match p with
  | Return | Throw => True
  | CallSubscribe _ _ k | CallUnsubscribe _ _ k | SetData _ k => no_publish k
  | CallPublish _ _ => False
  | ReadPending _ k => ∀ b, no_publish (k b)
  | GetData k => ∀ d, no_publish (k d)
  end.

(** The handler has no [throw] of its own. *)
Fixpoint no_throw {Event D} (p : prog Event D) : Prop :=
  match p with
  | Return => True
  | Throw => False
  | CallSubscribe _ _ k | CallUnsubscribe _ _ k | SetData _ k
  | CallPublish _ k => no_throw k
  | ReadPending _ k => ∀ b, no_throw (k b)
  | GetData k => ∀ d, no_throw (k d)
  end.

(** A handler that only subscribes, unsubscribes, reads flags and works on
    its own data. *)
Definition quiet {Event D} (p : prog Event D) : Prop :=
  no_publish p ∧ no_throw p.


(** The body [p] with every read of a flag answered from the set [P] of the
    subscribers whose flag is [true]. *)
Fixpoint answered {Event D} (P : gset ref) (p : prog Event D) : prog Event D :=
  match p with
  | Return => Return
  | Throw => Throw
  | CallSubscribe t h k => CallSubscribe t h (answered P k)
  | CallUnsubscribe t h k => CallUnsubscribe t h (answered P k)
  | CallPublish e k => CallPublish e (answered P k)
  | ReadPending h k => answered P (k (bool_decide (h ∈ P)))
  | GetData k => GetData (λ d, answered P (k d))
  | SetData d k => SetData d (answered P k)
  end.

(** ** The dispatcher *)

Section Dispatcher.
Context {Event : Type} `{IEvent Event} {D : Type}.

(** The object table: [cname h] is [h.constructor.name], [handle h e] the
    body of [h.handle(this, e)]. *)
Variable cname : ref → string.
Variable handle : ref → Event → prog Event D.

(** [handlers] is the private field of the service; [pending] holds the
    subscribers whose [isPending] is [true]; [data] is what the handlers
    close over. *)
Record state := { handlers : list IHandler; pending : gset ref; data : D }.

Definition isPending (h : ref) (s : state) : bool :=
  bool_decide (h ∈ pending s).

(** [h.isPending = b] *)
Definition setPending (h : ref) (b : bool) (s : state) : state :=
  {| handlers := handlers s;
     pending := if b then {[h]} ∪ pending s else pending s ∖ {[h]};
     data := data s |}.

Definition setData (d : D) (s : state) : state :=
  {| handlers := handlers s; pending := pending s; data := d |}.

Definition setHandlers (hs : list IHandler) (s : state) : state :=
  {| handlers := hs; pending := pending s; data := data s |}.

(** [subscribe(type, handler)]: [find] returns the first record of that
    type; the call returns early when there is one and its handler has the
    same constructor name, and pushes otherwise. *)
Definition subscribe (t : string) (h : ref) (s : state) : state :=
  let existingHandler :=
    List.find (λ it, bool_decide (htype it = t)) (handlers s) in
  if match existingHandler with
     | Some ex => bool_decide (cname (handler ex) = cname h)
     | None => false
     end
  then s
  else setHandlers (handlers s ++ [{| htype := t; handler := h |}]) s.

(** The callback of the [filter] in [unsubscribe]: the records it keeps. *)
Definition kept (t : string) (h : option ref) (it : IHandler) : Prop :=
  match h with
  | Some h => htype it ≠ t ∨ cname (handler it) ≠ cname h
  | None => htype it ≠ t
  end.

#[global] Instance kept_dec t h it : Decision (kept t h it).
Proof. destruct h; apply _. Defined.

(** [unsubscribe(type, handler?)] *)
Definition unsubscribe (t : string) (h : option ref) (s : state) : state :=
  setHandlers (filter (kept t h) (handlers s)) s.

(** One step of the [forEach] of [publish], recorded: the recipient, the
    event it was handed and the flags as they were when its [handle] was
    entered. *)
Record visit := { v_handler : ref; v_event : Event; v_pending : gset ref }.

(** [.map(it => { it.handler.isPending = true; return it })]: runs over the
    whole filtered array before the [forEach] starts. *)
Definition mark (snapshot : list IHandler) (s : state) : state :=
  foldl (λ s it, setPending (handler it) true s) s snapshot.

(** [.forEach(({handler}) => { handler.handle(this, event);
    handler.isPending = false })], with [call] standing for the call of
    [handle].  An exception leaves the loop at once. *)
Fixpoint forEach (call : ref → Event → state → outcome * state)
    (e : Event) (snapshot : list IHandler) (s : state)
    : outcome * state * list visit :=
  match snapshot with
  | [] => (Normal, s, [])
  | it :: rest =>
      let v := {| v_handler := handler it; v_event := e;
                  v_pending := pending s |} in
      match call (handler it) e s with
      | (Normal, s1) =>
          let '(o, s2, vs) :=
            forEach call e rest (setPending (handler it) false s1) in
          (o, s2, v :: vs)
      | (o, s1) => (o, s1, [v])
      end
  end.

(** The records [publish] filters out of the registry. *)
Definition matching (e : Event) (hs : list IHandler) : list IHandler :=
  filter (λ it, htype it = type e) hs.

(** The body of [publish(event)]. *)
Definition publish_with (call : ref → Event → state → outcome * state)
    (e : Event) (s : state) : outcome * state * list visit :=
  if bool_decide (length (handlers s) = 0) then (Normal, s, [])
  else
    let snapshot := matching e (handlers s) in
    forEach call e snapshot (mark snapshot s).

(** Running a handler body; [pub] is the service's [publish]. *)
Fixpoint run (pub : Event → state → outcome * state)
    (p : prog Event D) (s : state) : outcome * state :=
  match p with
  | Return => (Normal, s)
  | Throw => (Raised, s)
  | CallSubscribe t h k => run pub k (subscribe t h s)
  | CallUnsubscribe t h k => run pub k (unsubscribe t h s)
  | CallPublish e k =>
      match pub e s with
      | (Normal, s') => run pub k s'
      | (o, s') => (o, s')
      end
  | ReadPending h k => run pub (k (isPending h s)) s
  | GetData k => run pub (k (data s)) s
  | SetData d k => run pub k (setData d s)
  end.

(** [h.handle(this, e)] with room for [fuel] nested calls of [handle] on
    the stack; a handler that publishes from inside [handle] needs one more
    frame for every level of nesting. *)
Fixpoint invoke (fuel : nat) (h : ref) (e : Event) (s : state)
    : outcome * state :=
  match fuel with
  | 0 => (Overflow, s)
  | S fuel' =>
      run (λ e' s', let '(o, s'', _) := publish_with (invoke fuel') e' s' in
                    (o, s''))
          (handle h e) s
  end.

(** [publish(event)]: outcome, final state and the visits it made. *)
Definition publish (fuel : nat) (e : Event) (s : state)
    : outcome * state * list visit :=
  publish_with (invoke fuel) e s.

(** What is read off a [publish]. *)
Definition recipients (e : Event) (s : state) : list ref :=
  handler <$> matching e (handlers s).

Definition visited (r : outcome * state * list visit) : list ref :=
  v_handler <$> r.2.

End Dispatcher.

Arguments state D : clear implicits.
Arguments visit Event : clear implicits.

(** ** The event classes *)

(** [class MachineSaleEvent implements IEvent]; [number] is the type of the
    quantities, which the class only stores and hands back. *)
Module MachineSaleEvent.
Record t (number : Type) := new { _sold : number; _machineId : string }.
Arguments new {number} _ _.
Arguments _sold {number} _.
Arguments _machineId {number} _.

Definition machineId {number} (this : t number) : string := _machineId this.
Definition getSoldQuantity {number} (this : t number) : number := _sold this.
Definition type {number} (this : t number) : string := "sale".
End MachineSaleEvent.

(** [class MachineRefillEvent implements IEvent] *)
Module MachineRefillEvent.
Record t (number : Type) := new { _refill : number; _machineId : string }.
Arguments new {number} _ _.
Arguments _refill {number} _.
Arguments _machineId {number} _.

Definition machineId {number} (this : t number) : string := _machineId this.
Definition getRefillQuantity {number} (this : t number) : number :=
  _refill this.
Definition type {number} (this : t number) : string := "refill".
End MachineRefillEvent.

#[global] Instance MachineSaleEvent_IEvent {number} :
  IEvent (MachineSaleEvent.t number) :=
  {| type := MachineSaleEvent.type; machineId := MachineSaleEvent.machineId |}.

#[global] Instance MachineRefillEvent_IEvent {number} :
  IEvent (MachineRefillEvent.t number) :=
  {| type := MachineRefillEvent.type;
     machineId := MachineRefillEvent.machineId |}.

(** ** The program of [app.ts]: machines, subscribers, objects *)

Module App.

(** Stock levels start at 10 and move by 1, 2, 3 or 5: the [number]s of the
    program are small integers. *)
Record Machine := { stockLevel : Z; id : string }.

(** The integers on which the [number] arithmetic of JavaScript is that of
    the integers: those up to [Number.MAX_SAFE_INTEGER] in absolute value.
    What is stated about the sums and differences the handlers compute is
    stated for operands and results in this range. *)
Definition safe (n : Z) : Prop := (- (2 ^ 53 - 1) ≤ n ≤ 2 ^ 53 - 1)%Z.

(** The events the program publishes: an object of one of the two event
    classes. *)
Inductive event :=
| Sale (e : MachineSaleEvent.t Z)
| Refill (e : MachineRefillEvent.t Z).

#[global] Instance event_IEvent : IEvent event :=
  {| type := λ e, match e with Sale e => type e | Refill e => type e end;
     machineId := λ e,
       match e with Sale e => machineId e | Refill e => machineId e end |}.

(** [event.getSoldQuantity()] on an object typed [MachineSaleEvent] by the
    handler's signature; the method is missing on the other class. *)
Definition getSoldQuantity (e : event) : option Z :=
  match e with
  | Sale e => Some (MachineSaleEvent.getSoldQuantity e)
  | Refill _ => None
  end.

Definition getRefillQuantity (e : event) : option Z :=
  match e with
  | Refill e => Some (MachineRefillEvent.getRefillQuantity e)
  | Sale _ => None
  end.

(** [this.machines.find(it => it.id === event.machineId())] *)
Definition findMachine (mid : string) (machines : list Machine)
    : option Machine :=
  List.find (λ it, bool_decide (id it = mid)) machines.

(** [machine.stockLevel = f(machine.stockLevel)] on the machine found. *)
Fixpoint setStock (mid : string) (f : Z → Z) (machines : list Machine)
    : list Machine :=
  match machines with
  | [] => []
  | m :: rest =>
      if bool_decide (id m = mid)
      then {| stockLevel := f (stockLevel m); id := id m |} :: rest
      else m :: setStock mid f rest
  end.

Abbreviation body := (prog event (list Machine)).

(** [MachineSaleSubscriber.handle] *)
Definition MachineSaleSubscriber_handle (ev : event) : body :=
  GetData (λ machines,
    match findMachine (machineId ev) machines with
    | None => Return
    | Some machine =>
        match getSoldQuantity ev with
        | None => Throw
        | Some sold =>
            SetData (setStock (machineId ev) (λ l, l - sold)%Z machines)
              Return
        end
    end).

(** [LowStockWarningSubscriber.checkStock] *)
Definition checkStock (stockLevelAfterSale : Z) : bool :=
  bool_decide (stockLevelAfterSale < 3)%Z.

(** [LowStockWarningSubscriber.handle] *)
Definition LowStockWarningSubscriber_handle (saleSubscriber : ref)
    (ev : event) : body :=
  GetData (λ machines,
    match findMachine (machineId ev) machines with
    | None => Return
    | Some machine =>
        ReadPending saleSubscriber (λ saleIsPending,
          match (if saleIsPending
                 then (λ sold, stockLevel machine - sold)%Z
                        <$> getSoldQuantity ev
                 else Some (stockLevel machine)) with
          | None => Throw
          | Some stockLevelAfterSale =>
              if checkStock stockLevelAfterSale
              then CallUnsubscribe "sale" (Some saleSubscriber) Return
              else Return
          end)
    end).

(** [MachineRefillSubscriber.handle] *)
Definition MachineRefillSubscriber_handle (saleSubscriber : ref)
    (ev : event) : body :=
  GetData (λ machines,
    match findMachine (machineId ev) machines with
    | None => Return
    | Some machine =>
        match getRefillQuantity ev with
        | None => Throw
        | Some refill =>
            SetData (setStock (machineId ev) (λ l, l + refill)%Z machines)
              (if negb (checkStock (stockLevel machine + refill))
               then CallSubscribe "sale" saleSubscriber Return
               else Return)
        end
    end).

(** The three subscriber objects the program creates. *)
Definition saleSubscriber : ref := 0.
Definition lowStockWarningSubscriber : ref := 1.
Definition refillSubscriber : ref := 2.

Definition cname (h : ref) : string :=
  match h with
  | 0 => "MachineSaleSubscriber"
  | 1 => "LowStockWarningSubscriber"
  | 2 => "MachineRefillSubscriber"
  | _ => "Object"
  end.

Definition handle (h : ref) (ev : event) : body :=
  match h with
  | 0 => MachineSaleSubscriber_handle ev
  | 1 => LowStockWarningSubscriber_handle saleSubscriber ev
  | 2 => MachineRefillSubscriber_handle saleSubscriber ev
  | _ => Return
  end.

Definition machines : list Machine :=
  [ {| stockLevel := 10; id := "001" |};
    {| stockLevel := 10; id := "002" |};
    {| stockLevel := 10; id := "003" |} ].

(** The service after the three [subscribe] calls of the program. *)
Definition start : state (list Machine) :=
  subscribe cname "refill" refillSubscriber
    (subscribe cname "sale" lowStockWarningSubscriber
       (subscribe cname "sale" saleSubscriber
          {| handlers := []; pending := ∅; data := machines |})).

Definition sale (sold : Z) (mid : string) : event :=
  Sale (MachineSaleEvent.new sold mid).
Definition refill (qty : Z) (mid : string) : event :=
  Refill (MachineRefillEvent.new qty mid).

(** Publishing a list of events one after the other, as the last line of
    the program does; the visits of each [publish] are collected. *)
Fixpoint publishAll (fuel : nat) (events : list event)
    (s : state (list Machine))
    : outcome * state (list Machine) * list (list ref) :=
  match events with
  | [] => (Normal, s, [])
  | e :: rest =>
      match publish cname handle fuel e s with
      | (Normal, s1, vs) =>
          let '(o, s2, vss) := publishAll fuel rest s1 in
          (o, s2, (v_handler <$> vs) :: vss)
      | (o, s1, vs) => (o, s1, [v_handler <$> vs])
      end
  end.

(** [randomMachine], as a function of the value of [Math.random() * 3]. *)
Definition randomMachine (random : Q) : string :=
  if Qlt_le_dec random 1 then "001"
  else if Qlt_le_dec random 2 then "002"
  else "003".

(** [eventGenerator], as a function of its three draws: the one that picks
    the class, the one that picks the quantity, and the value of
    [Math.random() * 3] inside [randomMachine]. *)
Definition eventGenerator (random qtyDraw machineDraw : Q) : event :=
  if Qlt_le_dec random (1 # 2) then
    let saleQty := if Qlt_le_dec qtyDraw (1 # 2) then 1%Z else 2%Z in
    sale saleQty (randomMachine machineDraw)
  else
    let refillQty := if Qlt_le_dec qtyDraw (1 # 2) then 3%Z else 5%Z in
    refill refillQty (randomMachine machineDraw).

(** The program: [events] is [[1,2,3,4,5].map(i => eventGenerator())], one
    triple of draws per event, and every event is published in turn. *)
Definition program (d1 d2 d3 d4 d5 : Q * Q * Q)
    : outcome * state (list Machine) * list (list ref) :=
  let events :=
    (λ d : Q * Q * Q, eventGenerator d.1.1 d.1.2 d.2) <$> [d1; d2; d3; d4; d5] in
  publishAll 1 events start.

(** The events [eventGenerator] can return. *)
Definition generated : list event :=
  [ sale 1 "001"; sale 1 "002"; sale 1 "003";
    sale 2 "001"; sale 2 "002"; sale 2 "003";
    refill 3 "001"; refill 3 "002"; refill 3 "003";
    refill 5 "001"; refill 5 "002"; refill 5 "003" ].

(** The registry holds each subscriber under the type its [handle] is
    written for. *)
Definition well_typed (it : IHandler) : Prop :=
  (htype it = "sale" ∧ (handler it = saleSubscriber
                        ∨ handler it = lowStockWarningSubscriber))
  ∨ (htype it = "refill" ∧ handler it = refillSubscriber).

(** The registries the program can be in during its five events: as the
    three [subscribe] calls leave it, with the sale handler unsubscribed, and
    with the sale handler subscribed again. *)
Definition registry0 : list IHandler :=
  [ {| htype := "sale"; handler := saleSubscriber |};
    {| htype := "sale"; handler := lowStockWarningSubscriber |};
    {| htype := "refill"; handler := refillSubscriber |} ].
Definition registry1 : list IHandler :=
  [ {| htype := "sale"; handler := lowStockWarningSubscriber |};
    {| htype := "refill"; handler := refillSubscriber |} ].
Definition registry2 : list IHandler :=
  [ {| htype := "sale"; handler := lowStockWarningSubscriber |};
    {| htype := "refill"; handler := refillSubscriber |};
    {| htype := "sale"; handler := saleSubscriber |} ].

(** What holds of the service after [k] generated events. *)
Definition after (k : nat) (s : state (list Machine)) : Prop :=
  id <$> data s = id <$> machines
  ∧ ((handlers s = registry0
      ∧ Forall (λ m, 3 ≤ stockLevel m ∧ 10 - 2 * Z.of_nat k ≤ stockLevel m)%Z
          (data s))
     ∨ (4 ≤ k ∧ handlers s = registry1
        ∧ Forall (λ m, 1 ≤ stockLevel m)%Z (data s))
     ∨ (5 ≤ k ∧ handlers s = registry2
        ∧ Forall (λ m, 1 ≤ stockLevel m)%Z (data s))).

End App.

(** ** The first version of the program

    The source file without [isPending]: [handle] takes the event only, so a
    handler is a change of the machines, and it walks over all the machines
    instead of looking one up. *)

Module V0.

(** The [for (let machine of this.machines)] loop of both handlers: every
    machine with the event's id has its stock level changed. *)
Definition stockAll (mid : string) (f : Z → Z) (machines : list App.Machine)
    : list App.Machine :=
  (λ machine,
     if bool_decide (App.id machine = mid)
     then {| App.stockLevel := f (App.stockLevel machine);
             App.id := App.id machine |}
     else machine) <$> machines.

(** [MachineSaleSubscriber.handle(event)]: the first line logs
    [event.getSoldQuantity()], which is missing on an event of the other
    class; [None] is the exception. *)
Definition MachineSaleSubscriber_handle (ev : App.event)
    (machines : list App.Machine) : option (list App.Machine) :=
  match App.getSoldQuantity ev with
  | None => None
  | Some sold => Some (stockAll (machineId ev) (λ l, l - sold)%Z machines)
  end.

(** [MachineRefillSubscriber.handle(event)] *)
Definition MachineRefillSubscriber_handle (ev : App.event)
    (machines : list App.Machine) : option (list App.Machine) :=
  match App.getRefillQuantity ev with
  | None => None
  | Some refill => Some (stockAll (machineId ev) (λ l, l + refill)%Z machines)
  end.

(** The two subscriber objects of that version. *)
Definition saleSubscriber : ref := 0.
Definition refillSubscriber : ref := 1.

Definition cname (h : ref) : string :=
  match h with
  | 0 => "MachineSaleSubscriber"
  | 1 => "MachineRefillSubscriber"
  | _ => "Object"
  end.

Definition handle (h : ref) (ev : App.event) (machines : list App.Machine)
    : option (list App.Machine) :=
  match h with
  | 0 => MachineSaleSubscriber_handle ev machines
  | 1 => MachineRefillSubscriber_handle ev machines
  | _ => Some machines
  end.

(** [.forEach(({handler}) => { handler.handle(event) })] *)
Fixpoint forEach (ev : App.event) (snapshot : list IHandler)
    (machines : list App.Machine) : outcome * list App.Machine * list ref :=
  match snapshot with
  | [] => (Normal, machines, [])
  | it :: rest =>
      match handle (handler it) ev machines with
      | Some machines1 =>
          let '(o, machines2, vs) := forEach ev rest machines1 in
          (o, machines2, handler it :: vs)
      | None => (Raised, machines, [handler it])
      end
  end.

(** [publish(event)] of that version: no copy, no flags; [subscribe] and
    [unsubscribe] are those of the later version. *)
Definition publish (ev : App.event) (s : state (list App.Machine))
    : outcome * state (list App.Machine) * list ref :=
  if bool_decide (length (handlers s) = 0) then (Normal, s, [])
  else
    let '(o, machines, vs) := forEach ev (matching ev (handlers s)) (data s) in
    (o, setData machines s, vs).

(** The service after the two [subscribe] calls of that version. *)
Definition start : state (list App.Machine) :=
  subscribe cname "refill" refillSubscriber
    (subscribe cname "sale" saleSubscriber
       {| handlers := []; pending := ∅; data := App.machines |}).

End V0.

(** ** What the specification says, in its own words *)

Section Wording.
Context {Event : Type} `{IEvent Event} {D : Type}.
Variable cname : ref → string.

(** The removal criterion of [unsubscribe] as the specification words it:
    the record has the given type and, when a handler is supplied, a
    handler of the same kind (constructor name) as the supplied one. *)
Definition targeted (t : string) (h : option ref) (it : IHandler) : Prop :=
  htype it = t ∧
  match h with
  | Some h => cname (handler it) = cname h
  | None => True
  end.

#[global] Instance targeted_dec t h it : Decision (targeted t h it).
Proof. unfold targeted. destruct h; apply _. Defined.

(** "At most one subscription per (type, handler-identity) pair". *)
Definition unique_kinds (hs : list IHandler) : Prop :=
  ∀ i j a b, hs !! i = Some a → hs !! j = Some b →
    htype a = htype b → cname (handler a) = cname (handler b) → i = j.

(** "A handler's in-flight flag is true only during its own [handle]
    invocation": while a recipient executes, no other recipient of the same
    [publish] is flagged. *)
Definition only_own_flag (rs : list ref) (vs : list (visit Event)) : Prop :=
  ∀ v h, v ∈ vs → h ∈ rs → h ≠ v_handler v → h ∉ v_pending v.

(** While the [i]-th recipient executes, the later recipients are flagged
    and the earlier ones are not. *)
Definition flags_follow_queue (rs : list ref) (vs : list (visit Event))
    : Prop :=
  ∀ i v, vs !! i = Some v →
    (∀ h, h ∈ drop (S i) rs → h ∈ v_pending v) ∧
    (∀ h, h ∈ take i rs → h ∉ v_pending v).

End Wording.

(** "The registry records whose type equals [event.type()]", in registry
    order: the handlers of those records.  Written from the words of the
    specification, apart from the [filter] of [publish]. *)
Fixpoint subscribed_to (t : string) (hs : list IHandler) : list ref :=
  match hs with
  | [] => []
  | it :: rest =>
      if String.eqb (htype it) t
      then handler it :: subscribed_to t rest
      else subscribed_to t rest
  end.



(** ** Test doubles

    An event class whose type tag is chosen by the caller, and small object
    tables for the scenarios of the specification. *)

Module Scenario.

Record event := { tag : string; target : string }.

#[global] Instance event_IEvent : IEvent event :=
  {| type := tag; machineId := target |}.

Definition x : event := {| tag := "x"; target := "001" |}.
Definition y : event := {| tag := "y"; target := "001" |}.

Definition A : ref := 0.
Definition B : ref := 1.
Definition C : ref := 2.

Definition cname (h : ref) : string :=
  match h with 0 => "A" | 1 => "B" | 2 => "C" | _ => "Object" end.

Definition empty : state unit :=
  {| handlers := []; pending := ∅; data := tt |}.

(** A, B and C subscribed to "x" in that order. *)
Definition abc : state unit :=
  subscribe cname "x" C (subscribe cname "x" B (subscribe cname "x" A empty)).

(** B's [handle] unsubscribes C; A and C do nothing. *)
Definition b_drops_c (h : ref) (e : event) : prog event unit :=
  match h with
  | 1 => CallUnsubscribe "x" (Some C) Return
  | _ => Return
  end.

(** A's [handle] publishes a "y" event when it is handed an "x" event. *)
Definition a_relays (h : ref) (e : event) : prog event unit :=
  match h with
  | 0 => if bool_decide (tag e = "x") then CallPublish y Return else Return
  | _ => Return
  end.

(** The same, and C is subscribed to "y" as well. *)
Definition abc_cy : state unit := subscribe cname "y" C abc.

(** A's [handle] publishes a "y" event and then throws, when it is handed
    an "x" event. *)
Definition a_relays_throws (h : ref) (e : event) : prog event unit :=
  match h with
  | 0 => if bool_decide (tag e = "x") then CallPublish y Throw else Return
  | _ => Return
  end.

(** A subscribed to "x" and to "y". *)
Definition a_xy : state unit :=
  subscribe cname "y" A (subscribe cname "x" A empty).

(** B's [handle] throws. *)
Definition b_throws (h : ref) (e : event) : prog event unit :=
  match h with
  | 1 => Throw
  | _ => Return
  end.

End Scenario.

(** * Properties of the registry operations *)

Section Registry.
Context {D : Type}.
Variable cname : ref → string.

Implicit Types (s : state D) (it : IHandler) (t : string).

Lemma kept_iff t h it : kept cname t h it ↔ ¬ targeted cname t h it.
Proof.
  unfold kept, targeted. destruct h as [h|]; [|tauto].
  destruct (decide (htype it = t)), (decide (cname (handler it) = cname h));
    tauto.
Qed.

Lemma handlers_unsubscribe t h s :
  handlers (unsubscribe cname t h s) =
  filter (λ it, ¬ targeted cname t h it) (handlers s).
Proof. simpl. apply list_filter_iff, kept_iff. Qed.

Lemma setHandlers_same s : setHandlers (handlers s) s = s.
Proof. by destruct s. Qed.

Lemma filter_all {A} (P : A → Prop) `{!∀ a, Decision (P a)} (l : list A) :
  (∀ a, a ∈ l → P a) → filter P l = l.
Proof.
  induction l as [|a l IH]; intros Hall; [done|].
  rewrite filter_cons_True by (apply Hall; left).
  f_equal. apply IH. intros b Hb. apply Hall. by right.
Qed.

(** The two ways [subscribe] can end. *)
Lemma subscribe_cases t h s :
  subscribe cname t h s = s ∨
  subscribe cname t h s =
    setHandlers (handlers s ++ [{| htype := t; handler := h |}]) s.
Proof.
  unfold subscribe.
  destruct (List.find _ _) as [ex|]; [destruct (bool_decide _)|]; auto.
Qed.

(** [subscribe] pushes when the registry has no record of that type. *)
Lemma subscribe_fresh t h s :
  (∀ it, it ∈ handlers s → htype it ≠ t) →
  subscribe cname t h s =
    setHandlers (handlers s ++ [{| htype := t; handler := h |}]) s.
Proof.
  intros Hno. unfold subscribe.
  destruct (List.find _ _) as [ex|] eqn:Hf; [|done].
  apply find_some in Hf as [Hin Ht].
  apply bool_decide_eq_true in Ht.
  apply list_elem_of_In in Hin. by apply Hno in Hin.
Qed.

(** [subscribe] pushes when the first record of that type holds a handler of
    another kind, whatever comes after it. *)
Lemma subscribe_behind_other_kind t h s pre ex post :
  handlers s = pre ++ ex :: post →
  (∀ it, it ∈ pre → htype it ≠ t) →
  htype ex = t → cname (handler ex) ≠ cname h →
  subscribe cname t h s =
    setHandlers (handlers s ++ [{| htype := t; handler := h |}]) s.
Proof.
  intros Hs Hpre Ht Hk. unfold subscribe. rewrite Hs.
  assert (List.find (λ it, bool_decide (htype it = t)) (pre ++ ex :: post)
          = Some ex) as ->.
  { clear Hs. induction pre as [|a pre IH]; simpl.
    - by rewrite bool_decide_eq_true_2.
    - rewrite bool_decide_eq_false_2 by (apply Hpre; left).
      apply IH. intros it Hit. apply Hpre. by right. }
  by rewrite bool_decide_eq_false_2.
Qed.

(** C4.  [unsubscribe(type, handler?)] removes exactly the records the
    specification names: with no handler, every record of that type; with a
    handler, the records of that type whose handler has the constructor name
    of the supplied one, whichever instance they hold.  The registry that
    remains is the old one filtered by the negated criterion, and the flags
    and the handlers' data are not touched. *)
Theorem unsubscribe_removes_exactly t (h : option ref) s :
  handlers (unsubscribe cname t h s) =
    filter (λ it, ¬ targeted cname t h it) (handlers s)
  ∧ (∀ it, it ∈ handlers (unsubscribe cname t h s) ↔
           it ∈ handlers s ∧ ¬ targeted cname t h it)
  ∧ (h = None → ∀ it, htype it = t → it ∉ handlers (unsubscribe cname t h s))
  ∧ (∀ h' other, h = Some h' → cname other = cname h' →
       {| htype := t; handler := other |} ∉ handlers (unsubscribe cname t h s))
  ∧ pending (unsubscribe cname t h s) = pending s
  ∧ data (unsubscribe cname t h s) = data s.
Proof.
  assert (∀ it, it ∈ handlers (unsubscribe cname t h s) ↔
                it ∈ handlers s ∧ ¬ targeted cname t h it) as Hmem.
  { intros it. rewrite handlers_unsubscribe, list_elem_of_filter. tauto. }
  split_and!; try done.
  - apply handlers_unsubscribe.
  - intros -> it Ht Hin. apply Hmem in Hin as [_ Hn]. by apply Hn.
  - intros h' other -> Hk Hin. apply Hmem in Hin as [_ Hn]. by apply Hn.
Qed.

(** C10.  [subscribe] leaves the state as it is or pushes one record at the
    end of the registry, every record staying at its index; [unsubscribe]
    yields a subsequence of the registry that drops only records meeting the
    removal criterion: the records that do not meet it are, as a sequence,
    the same before and after.  Neither touches flags or data. *)
Theorem registry_frame t (h : ref) (oh : option ref) s :
  (subscribe cname t h s = s ∨
   handlers (subscribe cname t h s) =
     handlers s ++ [{| htype := t; handler := h |}])
  ∧ (∀ i it, handlers s !! i = Some it →
             handlers (subscribe cname t h s) !! i = Some it)
  ∧ pending (subscribe cname t h s) = pending s
  ∧ data (subscribe cname t h s) = data s
  ∧ sublist (handlers (unsubscribe cname t oh s)) (handlers s)
  ∧ (∀ it, it ∈ handlers s → it ∉ handlers (unsubscribe cname t oh s) →
           targeted cname t oh it)
  ∧ filter (λ it, ¬ targeted cname t oh it) (handlers (unsubscribe cname t oh s))
    = filter (λ it, ¬ targeted cname t oh it) (handlers s)
  ∧ pending (unsubscribe cname t oh s) = pending s
  ∧ data (unsubscribe cname t oh s) = data s.
Proof.
  split_and!; try done.
  - destruct (subscribe_cases t h s) as [->| ->]; auto.
  - intros i it Hi.
    destruct (subscribe_cases t h s) as [->| ->]; [done|].
    simpl. by apply lookup_app_l_Some.
  - by destruct (subscribe_cases t h s) as [->| ->].
  - by destruct (subscribe_cases t h s) as [->| ->].
  - apply sublist_filter.
  - intros it Hin Hout. destruct (decide (targeted cname t oh it)); [done|].
    destruct Hout. rewrite handlers_unsubscribe. by apply list_elem_of_filter.
  - rewrite handlers_unsubscribe, list_filter_filter.
    apply list_filter_iff. tauto.
Qed.

(** With no record meeting the criterion, [unsubscribe] changes nothing. *)
Lemma unsubscribe_unmatched t (h : option ref) s :
  (∀ it, it ∈ handlers s → ¬ targeted cname t h it) →
  unsubscribe cname t h s = s.
Proof.
  intros Hno. unfold unsubscribe.
  rewrite filter_all; [apply setHandlers_same|].
  intros it Hit. by apply kept_iff, Hno.
Qed.

End Registry.

(** * Properties of delivery *)

Section Delivery.
Context {Event : Type} `{IEvent Event} {D : Type}.
Variable cname : ref → string.
Variable handle : ref → Event → prog Event D.

Implicit Types (s : state D) (e : Event) (p : prog Event D).
Implicit Types (snapshot : list IHandler) (h : ref).
Implicit Types (pub : Event → state D → outcome * state D).
Implicit Types (call : ref → Event → state D → outcome * state D).

Lemma pending_subscribe t h s : pending (subscribe cname t h s) = pending s.
Proof. by destruct (subscribe_cases cname t h s) as [-> | ->]. Qed.

Lemma mark_spec snapshot s :
  handlers (mark snapshot s) = handlers s
  ∧ data (mark snapshot s) = data s
  ∧ pending (mark snapshot s) = list_to_set (handler <$> snapshot) ∪ pending s.
Proof.
  revert s. induction snapshot as [|it rest IH]; intros s.
  - simpl. split_and!; [done..|set_solver].
  - simpl. destruct (IH (setPending (handler it) true s)) as (-> & -> & ->).
    simpl. split_and!; [done..|set_solver].
Qed.

(** A body without [publish] never touches a flag and cannot exhaust the
    stack. *)
Lemma run_no_publish pub p s :
  no_publish p →
  pending (run cname pub p s).2 = pending s
  ∧ (run cname pub p s).1 ≠ Overflow.
Proof.
  revert s. induction p as [| |t h k IH|t h k IH|e k IH|h k IH|k IH|d k IH];
    intros s Hp; simpl in *; try done.
  - destruct (IH (subscribe cname t h s) Hp) as [-> ?].
    by rewrite pending_subscribe.
  - by destruct (IH (unsubscribe cname t h s) Hp) as [-> ?].
  - by apply IH.
  - by apply IH.
  - by destruct (IH (setData d s) Hp) as [-> ?].
Qed.

(** While a body without [publish] runs, every flag it reads is as it was
    when the body was entered. *)
Lemma run_answered pub p s :
  no_publish p →
  run cname pub p s = run cname pub (answered (pending s) p) s.
Proof.
  revert s. induction p as [| |t h k IH|t h k IH|e k IH|h k IH|k IH|d k IH];
    intros s Hp; simpl in *; try done.
  - rewrite (IH (subscribe cname t h s) Hp). by rewrite pending_subscribe.
  - by rewrite (IH (unsubscribe cname t h s) Hp).
  - by apply IH.
  - by apply IH.
  - by rewrite (IH (setData d s) Hp).
Qed.

(** A quiet body returns. *)
Lemma run_quiet pub p s : quiet p → (run cname pub p s).1 = Normal.
Proof.
  intros [Hp Ht]. revert s.
  induction p as [| |t h k IH|t h k IH|e k IH|h k IH|k IH|d k IH];
    intros s; simpl in *; try done; auto.
Qed.


(** The [forEach] of [publish] walks down the snapshot it was given: what it
    visited is an initial segment of the snapshot, all of it when the loop
    ran to its end, and every recipient was handed the event. *)
Lemma forEach_visits call e snapshot s :
  ∃ rest,
    handler <$> snapshot = (v_handler <$> (forEach call e snapshot s).2) ++ rest
    ∧ ((forEach call e snapshot s).1.1 = Normal → rest = [])
    ∧ (∀ v, v ∈ (forEach call e snapshot s).2 → v_event v = e).
Proof.
  revert s. induction snapshot as [|it rest IH]; intros s; simpl.
  - exists []. split_and!; [done..|]. by intros v ?%elem_of_nil.
  - destruct (call (handler it) e s) as [[| |] s1]; simpl.
    + destruct (IH (setPending (handler it) false s1)) as (tl & Heq & Hn & Hev).
      destruct (forEach call e rest _) as [[o s2] vs]; simpl in *.
      exists tl. split_and!; [by f_equal|done|].
      intros v [->|Hv]%elem_of_cons; [done|by apply Hev].
    + exists (handler <$> rest). split_and!; [done..|].
      by intros v ->%list_elem_of_singleton.
    + exists (handler <$> rest). split_and!; [done..|].
      by intros v ->%list_elem_of_singleton.
Qed.

(** When every call of [handle] returns, so does the loop. *)
Lemma forEach_returns call e snapshot s :
  (∀ it s', it ∈ snapshot → (call (handler it) e s').1 = Normal) →
  (forEach call e snapshot s).1.1 = Normal.
Proof.
  revert s. induction snapshot as [|it rest IH]; intros s Hc; [done|].
  simpl. specialize (Hc it s) as Hit.
  destruct (call (handler it) e s) as [o s1]; simpl in *.
  rewrite Hit by left.
  specialize (IH (setPending (handler it) false s1)).
  destruct (forEach call e rest _) as [[o2 s2] vs]; simpl in *.
  apply IH. intros it' s' Hin. apply Hc. by right.
Qed.

Lemma recipients_nil_matching e s :
  recipients e s = [] → matching e (handlers s) = [].
Proof. unfold recipients. by intros ?%fmap_nil_inv. Qed.

Lemma matching_no_handlers e s :
  length (handlers s) = 0 → recipients e s = [].
Proof. unfold recipients. by intros ->%nil_length_inv. Qed.

(** [publish] is the loop over the matching records, flagged beforehand;
    the early return for the empty registry is the same loop over nothing. *)
Lemma publish_unfold fuel e s :
  publish cname handle fuel e s =
  forEach (invoke cname handle fuel) e (matching e (handlers s))
    (mark (matching e (handlers s)) s).
Proof.
  unfold publish, publish_with. case_bool_decide as Hlen; [|done].
  apply nil_length_inv in Hlen. by rewrite Hlen.
Qed.

(** The flags along the loop, when no recipient re-enters [publish]: the
    [i]-th recipient is entered with the flags the loop started from, less
    those of the recipients before it; the loop ends with all of them
    cleared, or, on an exception, with those cleared so far. *)
Lemma forEach_flags fuel e snapshot s :
  (∀ it, it ∈ snapshot → no_publish (handle (handler it) e)) →
  (∀ i v, (forEach (invoke cname handle (S fuel)) e snapshot s).2 !! i = Some v →
     v_pending v = pending s ∖ list_to_set (take i (handler <$> snapshot)))
  ∧ match (forEach (invoke cname handle (S fuel)) e snapshot s).1.1 with
    | Normal =>
        pending (forEach (invoke cname handle (S fuel)) e snapshot s).1.2
        = pending s ∖ list_to_set (handler <$> snapshot)
    | Raised =>
        ∃ i, length (forEach (invoke cname handle (S fuel)) e snapshot s).2 = S i
          ∧ pending (forEach (invoke cname handle (S fuel)) e snapshot s).1.2
            = pending s ∖ list_to_set (take i (handler <$> snapshot))
    | Overflow => False
    end.
Proof.
  revert s. induction snapshot as [|it rest IH]; intros s Hnp.
  - simpl. split; [by intros i v ?|set_solver].
  - assert (no_publish (handle (handler it) e)) as Hit by (apply Hnp; left).
    assert (∀ it', it' ∈ rest → no_publish (handle (handler it') e)) as Hrest
      by (intros it' ?; apply Hnp; by right).
    cbn [forEach invoke].
    match goal with |- context [run cname ?pub _ _] =>
      destruct (run_no_publish pub (handle (handler it) e) s Hit) as [Hp Ho];
      destruct (run cname pub (handle (handler it) e) s) as [o s1]
    end.
    simpl in Hp, Ho. destruct o; [| |done].
    + specialize (IH (setPending (handler it) false s1) Hrest).
      destruct (forEach _ e rest _) as [[o2 s2] vs]; simpl in IH |- *.
      destruct IH as [IHv IHo]. rewrite Hp in IHv, IHo. split.
      * intros [|i] v Hv; simpl in Hv.
        -- inversion Hv; subst; simpl. set_solver.
        -- rewrite (IHv i v Hv). simpl. set_solver.
      * destruct o2; [| |done].
        -- rewrite IHo. set_solver.
        -- destruct IHo as (i & Hlen & Hpi). exists (S i). split; [by rewrite Hlen|].
           rewrite Hpi. simpl. set_solver.
    + simpl. split.
      * intros [|i] v Hv; simpl in Hv; [|done].
        inversion Hv; subst; simpl. set_solver.
      * exists 0. split; [done|]. rewrite Hp. simpl. set_solver.
Qed.

(** What the loop visited is the snapshot cut at the number of visits. *)
Lemma forEach_visited_take call e snapshot s :
  v_handler <$> (forEach call e snapshot s).2
  = take (length (forEach call e snapshot s).2) (handler <$> snapshot).
Proof.
  destruct (forEach_visits call e snapshot s) as (rest & -> & _ & _).
  by rewrite <- (length_fmap v_handler), take_app_length.
Qed.

Lemma invoke_quiet fuel h e s :
  quiet (handle h e) → (invoke cname handle (S fuel) h e s).1 = Normal.
Proof. intros Hq. simpl. by apply run_quiet. Qed.

(** What [publish] visited is an initial segment of the snapshot taken when
    it began, and the whole of it when [publish] returns. *)
Lemma publish_visits_prefix fuel e s :
  ∃ rest,
    recipients e s = visited (publish cname handle fuel e s) ++ rest
    ∧ ((publish cname handle fuel e s).1.1 = Normal → rest = []).
Proof.
  rewrite publish_unfold. unfold recipients, visited.
  destruct (forEach_visits (invoke cname handle fuel) e
              (matching e (handlers s)) (mark (matching e (handlers s)) s))
    as (rest & Heq & Hn & _).
  by exists rest.
Qed.

(** With quiet recipients [publish] returns, having visited the snapshot. *)
Lemma publish_quiet_returns fuel e s :
  (∀ h, h ∈ recipients e s → quiet (handle h e)) →
  (publish cname handle (S fuel) e s).1.1 = Normal
  ∧ visited (publish cname handle (S fuel) e s) = recipients e s.
Proof.
  intros Hq.
  assert ((publish cname handle (S fuel) e s).1.1 = Normal) as Ho.
  { rewrite publish_unfold. apply forEach_returns. intros it s' Hit.
    by apply invoke_quiet, Hq, list_elem_of_fmap_2. }
  split; [done|].
  destruct (publish_visits_prefix (S fuel) e s) as (rest & Heq & Hn).
  by rewrite Heq, (Hn Ho), app_nil_r.
Qed.

(** The snapshot of the specification is what the [filter] of [publish]
    computes. *)
Lemma recipients_subscribed_to e s :
  recipients e s = subscribed_to (type e) (handlers s).
Proof.
  unfold recipients, matching.
  induction (handlers s) as [|it hs IH]; [done|]. simpl.
  destruct (String.eqb_spec (htype it) (type e)) as [Ht|Ht].
  - rewrite filter_cons_True by done. rewrite fmap_cons. by f_equal.
  - by rewrite filter_cons_False.
Qed.





(** Every recipient is handed the published event itself. *)
Lemma publish_hands_event fuel e s v :
  v ∈ (publish cname handle fuel e s).2 → v_event v = e.
Proof.
  rewrite publish_unfold.
  destruct (forEach_visits (invoke cname handle fuel) e
              (matching e (handlers s)) (mark (matching e (handlers s)) s))
    as (_ & _ & _ & Hev).
  apply Hev.
Qed.

(** C6.  Publishing an event no record matches (the empty registry
    included) returns normally, visits nothing and leaves the state as it
    was; unsubscribing what no record matches leaves the state as it was.
    Both are total functions of the model: there is no error to raise. *)
Theorem unmatched_is_noop :
  (∀ fuel e s, recipients e s = [] →
     publish cname handle fuel e s = (Normal, s, []))
  ∧ (∀ fuel e s, handlers s = [] →
     publish cname handle fuel e s = (Normal, s, []))
  ∧ (∀ t (h : option ref) s,
       (∀ it, it ∈ handlers s → ¬ targeted cname t h it) →
       unsubscribe cname t h s = s).
Proof.
  assert (∀ fuel e s, recipients e s = [] →
            publish cname handle fuel e s = (Normal, s, [])) as Hpub.
  { intros fuel e s Hr. rewrite publish_unfold.
    by rewrite (recipients_nil_matching e s Hr). }
  split_and!; [done| |].
  - intros fuel e s Hs. apply Hpub. unfold recipients. by rewrite Hs.
  - apply unsubscribe_unmatched.
Qed.

(** The flags at each visit and at the end of a [publish] none of whose
    recipients re-enters [publish]. *)
Lemma publish_flags fuel e s :
  (∀ h, h ∈ recipients e s → no_publish (handle h e)) →
  (∀ i v, (publish cname handle (S fuel) e s).2 !! i = Some v →
     v_pending v = (list_to_set (recipients e s) ∪ pending s)
                     ∖ list_to_set (take i (recipients e s)))
  ∧ match (publish cname handle (S fuel) e s).1.1 with
    | Normal =>
        pending (publish cname handle (S fuel) e s).1.2
        = pending s ∖ list_to_set (recipients e s)
    | Raised =>
        ∃ i, length (publish cname handle (S fuel) e s).2 = S i
          ∧ pending (publish cname handle (S fuel) e s).1.2
            = (list_to_set (recipients e s) ∪ pending s)
                ∖ list_to_set (take i (recipients e s))
    | Overflow => False
    end.
Proof.
  intros Hnp. rewrite publish_unfold. unfold recipients in *.
  destruct (forEach_flags fuel e (matching e (handlers s))
              (mark (matching e (handlers s)) s)) as [Hv Ho].
  { intros it Hit. by apply Hnp, list_elem_of_fmap_2. }
  destruct (mark_spec (matching e (handlers s)) s) as (_ & _ & Hm).
  rewrite Hm in Hv, Ho. split; [done|].
  destruct (forEach _ e _ _).1.1; [|done..].
  rewrite Ho. set_solver.
Qed.

Lemma NoDup_elem_of_take (rs : list ref) i j h :
  NoDup rs → rs !! i = Some h → (h ∈ take j rs ↔ i < j).
Proof.
  intros Hnd Hi. rewrite elem_of_take. split.
  - intros (i' & Hi' & Hlt). by rewrite (NoDup_lookup rs i i' h Hnd Hi Hi').
  - intros Hlt. by exists i.
Qed.

(** C3, as the code has it.  In a [publish] whose recipients are distinct
    objects with quiet bodies, the flag of the recipient at position [i] is
    [true] when the recipients at positions [0..i] are entered (all flags
    are raised before the first call of [handle]) and [false] when any later
    recipient is entered and after [publish] has returned: it is cleared
    right after its own [handle] returns.  The flag of a subscriber that is
    not a recipient is what it was before, at every visit and at the end. *)
Theorem isPending_timeline fuel e s :
  0 < fuel →
  NoDup (recipients e s) →
  (∀ h, h ∈ recipients e s → quiet (handle h e)) →
  (publish cname handle fuel e s).1.1 = Normal
  ∧ visited (publish cname handle fuel e s) = recipients e s
  ∧ (∀ (i j : nat) h v,
       recipients e s !! i = Some h →
       (publish cname handle fuel e s).2 !! j = Some v →
       (h ∈ v_pending v ↔ j ≤ i))
  ∧ (∀ h, h ∈ recipients e s →
       isPending h (publish cname handle fuel e s).1.2 = false)
  ∧ (∀ h, h ∉ recipients e s →
       (∀ v, v ∈ (publish cname handle fuel e s).2 →
          (h ∈ v_pending v ↔ h ∈ pending s))
       ∧ isPending h (publish cname handle fuel e s).1.2 = isPending h s).
Proof.
  intros Hfuel Hnd Hq. destruct fuel as [|fuel]; [lia|].
  destruct (publish_quiet_returns fuel e s Hq) as [Ho Hvis].
  destruct (publish_flags fuel e s) as [Hv Hend].
  { intros h Hh. by apply Hq. }
  rewrite Ho in Hend. unfold isPending. rewrite Hend.
  split_and!; [done..| | |].
  - intros i j h v Hi Hj. rewrite (Hv j v Hj).
    pose proof (NoDup_elem_of_take _ i j h Hnd Hi) as Htake.
    assert (h ∈ recipients e s) by (by eapply list_elem_of_lookup_2).
    set_unfold. split; [intros [_ Hn]|intros Hle].
    + destruct (decide (j ≤ i)); [done|]. destruct Hn. apply Htake. lia.
    + split; [by left|]. intros Hin%Htake. lia.
  - intros h Hh. apply bool_decide_eq_false. set_solver.
  - intros h Hh. split.
    + intros v [j Hj]%list_elem_of_lookup_1. rewrite (Hv j v Hj).
      assert (h ∉ take j (recipients e s)).
      { intros Hin. apply Hh. by eapply (subseteq_take j). }
      set_solver.
    + apply bool_decide_ext. set_solver.
Qed.

(** C8, as the code has it.  In a [publish] whose recipients are distinct
    objects none of which re-enters [publish]: when the first recipient is
    entered every
    recipient is flagged; every recipient is still flagged when its own
    [handle] is entered; and when the [i]-th recipient is entered the
    later recipients are flagged and the earlier ones are not. *)
Theorem later_flagged_earlier_cleared fuel e s :
  0 < fuel →
  NoDup (recipients e s) →
  (∀ h, h ∈ recipients e s → no_publish (handle h e)) →
  (∀ v h, (publish cname handle fuel e s).2 !! 0 = Some v →
     h ∈ recipients e s → h ∈ v_pending v)
  ∧ (∀ (i : nat) v h, (publish cname handle fuel e s).2 !! i = Some v →
       recipients e s !! i = Some h → h ∈ v_pending v)
  ∧ flags_follow_queue (recipients e s) (publish cname handle fuel e s).2.
Proof.
  intros Hfuel Hnd Hq. destruct fuel as [|fuel]; [lia|].
  destruct (publish_flags fuel e s Hq) as [Hv _].
  split_and!.
  - intros v h H0 Hh. rewrite (Hv 0 v H0). simpl. set_solver.
  - intros i v h Hi Hh. rewrite (Hv i v Hi).
    pose proof (NoDup_elem_of_take _ i i h Hnd Hh) as Htake.
    assert (h ∈ recipients e s) by (by eapply list_elem_of_lookup_2).
    set_unfold. split; [by left|]. intros Hin%Htake. lia.
  - intros i v Hi. rewrite (Hv i v Hi). split.
    + intros h [k Hk]%list_elem_of_lookup_1. rewrite lookup_drop in Hk.
      pose proof (NoDup_elem_of_take _ (S i + k) i h Hnd Hk) as Htake.
      assert (h ∈ recipients e s) by (by eapply list_elem_of_lookup_2).
      set_unfold. split; [by left|]. intros Hin%Htake. lia.
    + intros h Hh. set_solver.
Qed.

Lemma publish_visited_take fuel e s :
  visited (publish cname handle fuel e s)
  = take (length (publish cname handle fuel e s).2) (recipients e s).
Proof. rewrite publish_unfold. apply forEach_visited_take. Qed.

(** An exception in the recipient that follows [pre] ends the loop there. *)
Lemma forEach_raise call e pre it post s s1 vs s2 :
  forEach call e pre s = (Normal, s1, vs) →
  call (handler it) e s1 = (Raised, s2) →
  forEach call e (pre ++ it :: post) s =
    (Raised, s2,
     vs ++ [{| v_handler := handler it; v_event := e;
               v_pending := pending s1 |}]).
Proof.
  revert s vs. induction pre as [|a pre IH]; intros s vs Hpre Hcall.
  - simpl in *. inversion Hpre; subst. by rewrite Hcall.
  - simpl in *. destruct (call (handler a) e s) as [[| |] sa]; [|done..].
    destruct (forEach call e pre _) as [[o sb] vb] eqn:Hrest.
    inversion Hpre; subst.
    by rewrite (IH _ _ Hrest Hcall).
Qed.

(** C9, as the code has it.  An exception raised by a recipient's [handle]
    leaves the loop of [publish] at once: the recipients after it are not
    visited and the state is the one the handler left, no flag being cleared
    on the way out.  So, when the recipients are distinct objects none of
    which re-enters [publish], a [publish] that ends in an exception has
    visited the snapshot up to the throwing recipient, and the flags of that
    recipient and of all recipients after it are still [true]. *)
Theorem raise_leaves_loop_and_flags :
  (∀ call e pre it post s s1 vs s2,
     forEach call e pre s = (Normal, s1, vs) →
     call (handler it) e s1 = (Raised, s2) →
     forEach call e (pre ++ it :: post) s =
       (Raised, s2,
        vs ++ [{| v_handler := handler it; v_event := e;
                  v_pending := pending s1 |}]))
  ∧ (∀ fuel e s,
       (publish cname handle fuel e s).1.1 = Raised →
       NoDup (recipients e s) →
       (∀ h, h ∈ recipients e s → no_publish (handle h e)) →
       ∃ (i : nat) h,
         recipients e s !! i = Some h
         ∧ visited (publish cname handle fuel e s) = take (S i) (recipients e s)
         ∧ (∀ h', h' ∈ drop i (recipients e s) →
              isPending h' (publish cname handle fuel e s).1.2 = true)).
Proof.
  split; [apply forEach_raise|].
  intros fuel e s Hraised Hnd Hnp.
  destruct fuel as [|fuel].
  { rewrite publish_unfold in Hraised.
    by destruct (matching e (handlers s)). }
  destruct (publish_flags fuel e s Hnp) as [_ Hend].
  pose proof (publish_visited_take (S fuel) e s) as Hvis.
  rewrite Hraised in Hend. destruct Hend as (i & Hlen & Hp).
  rewrite Hlen in Hvis.
  assert (i < length (recipients e s)) as Hi.
  { apply (f_equal length) in Hvis.
    unfold visited in Hvis. rewrite length_fmap, Hlen, length_take in Hvis. lia. }
  destruct (lookup_lt_is_Some_2 _ _ Hi) as [h Hh].
  exists i, h. split_and!; [done..|].
  intros h' Hin. apply bool_decide_eq_true. rewrite Hp.
  assert (h' ∉ take i (recipients e s)) as Hout.
  { intros Hin'. rewrite <- (take_drop i (recipients e s)) in Hnd.
    apply NoDup_app in Hnd as (_ & Hdisj & _). by apply (Hdisj h'). }
  assert (h' ∈ recipients e s).
  { rewrite <- (take_drop i (recipients e s)). apply elem_of_app. by right. }
  set_solver.
Qed.





End Delivery.

(** * Events *)

(** The accessors of an event return what it was constructed with and its
    class's type tag, and [publish] hands every recipient the event it was
    given.  Events are values here, held by no state: that nothing changes
    an event object after its construction is a property of the JavaScript
    heap, which these equations do not carry. *)
Theorem event_accessors {number : Type} (sold refill : number) (q : Z)
    (mid : string) :
  type (MachineSaleEvent.new sold mid) = "sale"
  ∧ machineId (MachineSaleEvent.new sold mid) = mid
  ∧ MachineSaleEvent.getSoldQuantity (MachineSaleEvent.new sold mid) = sold
  ∧ type (MachineRefillEvent.new refill mid) = "refill"
  ∧ machineId (MachineRefillEvent.new refill mid) = mid
  ∧ MachineRefillEvent.getRefillQuantity (MachineRefillEvent.new refill mid)
    = refill
  ∧ (∀ cname handle fuel (s : state (list App.Machine)) v,
       v ∈ (publish cname handle fuel (App.sale q mid) s).2 →
       v_event v = App.sale q mid
       ∧ type (v_event v) = "sale"
       ∧ machineId (v_event v) = mid
       ∧ App.getSoldQuantity (v_event v) = Some q)
  ∧ (∀ cname handle fuel (s : state (list App.Machine)) v,
       v ∈ (publish cname handle fuel (App.refill q mid) s).2 →
       v_event v = App.refill q mid
       ∧ type (v_event v) = "refill"
       ∧ machineId (v_event v) = mid
       ∧ App.getRefillQuantity (v_event v) = Some q).
Proof.
  split_and!; try reflexivity.
  - intros cname handle fuel s v Hv.
    by rewrite (publish_hands_event cname handle fuel _ s v Hv).
  - intros cname handle fuel s v Hv.
    by rewrite (publish_hands_event cname handle fuel _ s v Hv).
Qed.

(** * The program and the scenarios, run *)

(** C2.  In the program itself: four sales of two units bring machine 001
    down to 2, the low-stock handler unsubscribes the sale handler, and a
    refill subscribes it again, behind the low-stock record.  The next
    [subscribe("sale", saleSubscriber)], which the following refill makes,
    looks at the first "sale" record only, finds another kind there, and
    pushes a second record for the same (type, kind) pair. *)
Lemma resubscribe_pushes_duplicate :
  let s :=
    (App.publishAll 1
       [App.sale 2 "001"; App.sale 2 "001"; App.sale 2 "001";
        App.sale 2 "001"; App.refill 5 "001"] App.start).1.2 in
  handlers s =
    [ {| htype := "sale"; handler := App.lowStockWarningSubscriber |};
      {| htype := "refill"; handler := App.refillSubscriber |};
      {| htype := "sale"; handler := App.saleSubscriber |} ]
  ∧ handlers (subscribe App.cname "sale" App.saleSubscriber s) =
    [ {| htype := "sale"; handler := App.lowStockWarningSubscriber |};
      {| htype := "refill"; handler := App.refillSubscriber |};
      {| htype := "sale"; handler := App.saleSubscriber |};
      {| htype := "sale"; handler := App.saleSubscriber |} ]
  ∧ ¬ unique_kinds App.cname
        (handlers (subscribe App.cname "sale" App.saleSubscriber s)).
Proof.
  split_and!; [by vm_compute..|].
  intros Hu.
  assert (2 = 3) as Hneq; [|done].
  by apply (Hu 2 3 {| htype := "sale"; handler := App.saleSubscriber |}
                   {| htype := "sale"; handler := App.saleSubscriber |}).
Qed.

(** The duplicate record makes the next sale count twice. *)
Lemma duplicate_delivers_twice :
  (App.publishAll 1
     [App.sale 2 "001"; App.sale 2 "001"; App.sale 2 "001"; App.sale 2 "001";
      App.refill 5 "001"; App.refill 5 "001"; App.sale 1 "001"]
     App.start).2
  = [ [0; 1]; [0; 1]; [0; 1]; [0; 1]; [2]; [2]; [1; 0; 0] ].
Proof. by vm_compute. Qed.

(** Where [subscribe] does what the specification says: nothing, when the
    first record of the type holds a handler of the same kind. *)
Lemma subscribe_same_kind_first {D} cname t h (s : state D) pre ex post :
  handlers s = pre ++ ex :: post →
  (∀ it, it ∈ pre → htype it ≠ t) →
  htype ex = t → cname (handler ex) = cname h →
  subscribe cname t h s = s.
Proof.
  intros Hs Hpre Ht Hk. unfold subscribe. rewrite Hs.
  assert (List.find (λ it, bool_decide (htype it = t)) (pre ++ ex :: post)
          = Some ex) as ->.
  { clear Hs. induction pre as [|a pre IH]; simpl.
    - by rewrite bool_decide_eq_true_2.
    - rewrite bool_decide_eq_false_2 by (apply Hpre; left).
      apply IH. intros it Hit. apply Hpre. by right. }
  by rewrite bool_decide_eq_true_2.
Qed.

(** ** The scenarios of the specification *)

Lemma b_drops_c_quiet h e : quiet (Scenario.b_drops_c h e).
Proof. destruct h as [|[|h]]; by repeat split. Qed.

Lemma abc_recipients :
  recipients Scenario.x Scenario.abc = [Scenario.A; Scenario.B; Scenario.C].
Proof. by vm_compute. Qed.

Lemma abc_NoDup : NoDup (recipients Scenario.x Scenario.abc).
Proof. rewrite abc_recipients. apply (bool_decide_unpack _). by vm_compute. Qed.


(** No record for "y", none for "z": nothing happens. *)
Lemma unmatched_is_noop_abc :
  publish Scenario.cname Scenario.b_drops_c 1 Scenario.y Scenario.abc
    = (Normal, Scenario.abc, [])
  ∧ publish Scenario.cname Scenario.b_drops_c 1 Scenario.x Scenario.empty
    = (Normal, Scenario.empty, [])
  ∧ unsubscribe Scenario.cname "z" None Scenario.abc = Scenario.abc.
Proof.
  destruct (unmatched_is_noop (Event:=Scenario.event)
              Scenario.cname Scenario.b_drops_c) as (Hp & He & Hu).
  split_and!.
  - apply Hp. by vm_compute.
  - apply He. by vm_compute.
  - apply Hu. apply Forall_forall. apply (bool_decide_unpack _). by vm_compute.
Defined.

(** The flags after "x" has been delivered to A, B and C: B's is down, and
    that of an object that was no recipient is as before. *)
Lemma isPending_timeline_abc :
  (publish Scenario.cname Scenario.b_drops_c 1 Scenario.x Scenario.abc).1.1
    = Normal
  ∧ isPending Scenario.B
      (publish Scenario.cname Scenario.b_drops_c 1 Scenario.x Scenario.abc).1.2
    = false
  ∧ isPending 7
      (publish Scenario.cname Scenario.b_drops_c 1 Scenario.x Scenario.abc).1.2
    = isPending 7 Scenario.abc.
Proof.
  destruct (isPending_timeline Scenario.cname Scenario.b_drops_c 1
              Scenario.x Scenario.abc) as (Ho & _ & _ & Hin & Hout).
  - lia.
  - apply abc_NoDup.
  - intros h _. apply b_drops_c_quiet.
  - split_and!; [done| |].
    + apply Hin. rewrite abc_recipients. apply (bool_decide_unpack _).
      by vm_compute.
    + apply Hout. rewrite abc_recipients. apply (bool_decide_unpack _).
      by vm_compute.
Defined.

Lemma app_sale_quiet q mid h :
  h ∈ recipients (App.sale q mid) App.start →
  quiet (App.handle h (App.sale q mid)).
Proof.
  intros Hh.
  assert (h = 0 ∨ h = 1) as [-> | ->].
  { assert (recipients (App.sale q mid) App.start = [0; 1]) as Hr
      by (by vm_compute).
    rewrite Hr in Hh. revert Hh. rewrite !elem_of_cons, elem_of_nil. tauto. }
  - split; simpl; intros machines; by destruct (App.findMachine _ _).
  - split; simpl; intros machines; destruct (App.findMachine _ _); try done;
      intros []; simpl; by destruct (App.checkStock _).
Qed.

(** The program's first sale: when the sale handler is entered, the
    low-stock handler, which comes after it, is flagged. *)
Lemma later_flagged_in_program :
  ∃ v,
    (publish App.cname App.handle 1 (App.sale 1 "001") App.start).2 !! 0
      = Some v
    ∧ App.lowStockWarningSubscriber ∈ v_pending v.
Proof.
  destruct (later_flagged_earlier_cleared App.cname App.handle 1
              (App.sale 1 "001") App.start) as (H0 & _ & _).
  - lia.
  - apply (bool_decide_unpack _). by vm_compute.
  - intros h Hh. apply (app_sale_quiet 1 "001" h Hh).
  - eexists. split; [reflexivity|].
    apply H0; [reflexivity|]. apply (bool_decide_unpack _). by vm_compute.
Defined.

Lemma b_throws_no_publish h e : no_publish (Scenario.b_throws h e).
Proof. by destruct h as [|[|h]]. Qed.

(** B throws: C is not visited, and B and C stay flagged. *)
Lemma raise_leaves_loop_and_flags_abc :
  ∃ (i : nat) h,
    recipients Scenario.x Scenario.abc !! i = Some h
    ∧ visited (publish Scenario.cname Scenario.b_throws 1 Scenario.x Scenario.abc)
      = take (S i) (recipients Scenario.x Scenario.abc)
    ∧ (∀ h', h' ∈ drop i (recipients Scenario.x Scenario.abc) →
         isPending h'
           (publish Scenario.cname Scenario.b_throws 1 Scenario.x
              Scenario.abc).1.2 = true).
Proof.
  destruct (raise_leaves_loop_and_flags (Event:=Scenario.event)
              Scenario.cname Scenario.b_throws) as [_ Hb].
  apply Hb.
  - by vm_compute.
  - apply abc_NoDup.
  - intros h _. apply b_throws_no_publish.
Defined.

Lemma raise_visits_A_and_B :
  publish Scenario.cname Scenario.b_throws 1 Scenario.x Scenario.abc
  = (Raised,
     setPending Scenario.A false (mark (handlers Scenario.abc) Scenario.abc),
     [ {| v_handler := Scenario.A; v_event := Scenario.x;
          v_pending := {[Scenario.A; Scenario.B; Scenario.C]} |};
       {| v_handler := Scenario.B; v_event := Scenario.x;
          v_pending := {[Scenario.B; Scenario.C]} |} ]).
Proof. by vm_compute. Qed.


(** ** Where the specification and the code part *)


(** C3.  The program's first sale: when the sale handler is entered, the
    flag of the low-stock handler, another recipient of the same [publish],
    is [true]. *)
Lemma flag_up_outside_own_call :
  ¬ only_own_flag (recipients (App.sale 1 "001") App.start)
      (publish App.cname App.handle 1 (App.sale 1 "001") App.start).2.
Proof.
  intros Hclaim.
  assert (∃ v, (publish App.cname App.handle 1 (App.sale 1 "001") App.start).2
                 !! 0 = Some v
               ∧ v_handler v = App.saleSubscriber
               ∧ App.lowStockWarningSubscriber ∈ v_pending v)
    as (v & Hv & Hh & Hflag).
  { eexists. split_and!; [reflexivity|reflexivity|].
    apply (bool_decide_unpack _). by vm_compute. }
  apply (Hclaim v App.lowStockWarningSubscriber); [| | |done].
  - by eapply list_elem_of_lookup_2.
  - apply (bool_decide_unpack _). by vm_compute.
  - by rewrite Hh.
Qed.

(** C8.  A, B and C are subscribed to "x" and C to "y" as well; A's [handle]
    publishes a "y" event.  When B, the second recipient of the "x" event, is
    entered, the flag of C, the third recipient, is down: the nested
    [publish] has cleared it. *)
Lemma later_recipient_unflagged :
  ¬ flags_follow_queue (recipients Scenario.x Scenario.abc_cy)
      (publish Scenario.cname Scenario.a_relays 2 Scenario.x
         Scenario.abc_cy).2.
Proof.
  intros Hclaim.
  assert (∃ v, (publish Scenario.cname Scenario.a_relays 2 Scenario.x
                  Scenario.abc_cy).2 !! 1 = Some v
               ∧ v_handler v = Scenario.B
               ∧ Scenario.C ∉ v_pending v)
    as (v & Hv & _ & Hflag).
  { eexists. split_and!; [reflexivity|reflexivity|].
    apply (bool_decide_unpack _). by vm_compute. }
  destruct (Hclaim 1 v Hv) as [Hlater _].
  apply Hflag, Hlater. apply (bool_decide_unpack _). by vm_compute.
Qed.

(** C9.  A is subscribed to "x" and to "y"; on an "x" event its [handle]
    publishes a "y" event and then throws.  The exception leaves [publish],
    and the flag of A, the throwing handler, is down: the nested [publish]
    has cleared it. *)
Lemma thrower_flag_down :
  (publish Scenario.cname Scenario.a_relays_throws 2 Scenario.x
     Scenario.a_xy).1.1 = Raised
  ∧ visited (publish Scenario.cname Scenario.a_relays_throws 2 Scenario.x
               Scenario.a_xy) = [Scenario.A]
  ∧ isPending Scenario.A
      (publish Scenario.cname Scenario.a_relays_throws 2 Scenario.x
         Scenario.a_xy).1.2 = false.
Proof. by vm_compute. Qed.

(** * Further properties of the dispatcher *)

Section Composition.
Context {Event : Type} `{IEvent Event} {D : Type}.
Variable cname : ref → string.
Variable handle : ref → Event → prog Event D.

Implicit Types (s : state D) (e : Event) (p : prog Event D) (h : ref).

(** X1.  Unsubscribing what has just been subscribed undoes the
    subscription, and more: the state is the one [unsubscribe] alone would
    have given, with the handler supplied or not. *)
Theorem unsubscribe_after_subscribe (t : string) h s :
  unsubscribe cname t (Some h) (subscribe cname t h s)
    = unsubscribe cname t (Some h) s
  ∧ unsubscribe cname t None (subscribe cname t h s)
    = unsubscribe cname t None s.
Proof.
  destruct (subscribe_cases cname t h s) as [-> | ->]; [done|].
  unfold unsubscribe, setHandlers; simpl.
  rewrite !filter_app.
  rewrite (filter_cons_False (kept cname t (Some h)))
    by (unfold kept; simpl; intros [?|?]; done).
  rewrite (filter_cons_False (kept cname t None))
    by (unfold kept; simpl; intros ?; done).
  by rewrite !filter_nil, !app_nil_r.
Qed.

(** X2.  [unsubscribe] is idempotent, and two [unsubscribe] calls can be
    made in either order. *)
Theorem unsubscribe_idempotent_commutes
    (t1 t2 : string) (h1 h2 : option ref) s :
  unsubscribe cname t1 h1 (unsubscribe cname t1 h1 s) = unsubscribe cname t1 h1 s
  ∧ unsubscribe cname t1 h1 (unsubscribe cname t2 h2 s)
    = unsubscribe cname t2 h2 (unsubscribe cname t1 h1 s).
Proof.
  unfold unsubscribe, setHandlers; simpl. split; f_equal.
  - rewrite list_filter_filter. apply list_filter_iff. tauto.
  - rewrite !list_filter_filter. apply list_filter_iff. tauto.
Qed.

Lemma subscribe_registers (t : string) h s :
  ∃ it, it ∈ handlers (subscribe cname t h s)
        ∧ htype it = t ∧ cname (handler it) = cname h.
Proof.
  unfold subscribe.
  destruct (List.find _ _) as [ex|] eqn:Hf.
  - apply find_some in Hf as [Hin Ht].
    apply bool_decide_eq_true in Ht. apply list_elem_of_In in Hin.
    case_bool_decide as Hk; [by exists ex|].
    exists {| htype := t; handler := h |}.
    split; [|done]. apply elem_of_app. right. by left.
  - exists {| htype := t; handler := h |}.
    split; [|done]. apply elem_of_app. right. by left.
Qed.

(** X3.  After [subscribe(type, handler)] the registry holds a record of
    that type whose handler has the kind of [handler] (not necessarily the
    object that was passed), and it has grown by one record at most. *)
Theorem subscribe_registers_kind (t : string) h s :
  (∃ it, it ∈ handlers (subscribe cname t h s)
         ∧ htype it = t ∧ cname (handler it) = cname h)
  ∧ length (handlers s) ≤ length (handlers (subscribe cname t h s))
      ≤ S (length (handlers s)).
Proof.
  split; [apply subscribe_registers|].
  destruct (subscribe_cases cname t h s) as [-> | ->]; [lia|].
  simpl. rewrite length_app. simpl. lia.
Qed.

Lemma filter_none {A} (P : A → Prop) `{!∀ a, Decision (P a)} (l : list A) :
  (∀ a, a ∈ l → ¬ P a) → filter P l = [].
Proof.
  induction l as [|a l IH]; intros Hno; [done|].
  rewrite filter_cons_False by (apply Hno; left).
  apply IH. intros b Hb. apply Hno. by right.
Qed.

(** X4.  On a registry with no record of the type, subscribing the same
    handler twice is subscribing it once: the second call changes nothing,
    and the registry holds one record of that type. *)
Theorem subscribe_twice_on_fresh_type (t : string) h s :
  (∀ it, it ∈ handlers s → htype it ≠ t) →
  subscribe cname t h (subscribe cname t h s) = subscribe cname t h s
  ∧ filter (λ it, htype it = t) (handlers (subscribe cname t h s))
    = [{| htype := t; handler := h |}].
Proof.
  intros Hno. rewrite (subscribe_fresh cname t h s Hno). split.
  - apply (subscribe_same_kind_first cname t h _ (handlers s)
             {| htype := t; handler := h |} []); [done|done|done|done].
  - simpl. rewrite filter_app.
    rewrite (filter_none (λ it, htype it = t) (handlers s) Hno).
    by rewrite filter_cons_True.
Qed.

End Composition.

Section Invariants.
Context {Event : Type} `{IEvent Event} {D : Type}.
Variable cname : ref → string.
Variable handle : ref → Event → prog Event D.

Implicit Types (s : state D) (e : Event) (p : prog Event D) (h : ref).
Implicit Types (snapshot : list IHandler).
Implicit Types (call : ref → Event → state D → outcome * state D).

(** A property of the state that every call of [handle] and every
    assignment of a flag keeps is kept by the loop, which then returns. *)
Lemma forEach_invariant (I : state D → Prop) call e snapshot s :
  I s →
  (∀ it s', it ∈ snapshot → I s' →
     (call (handler it) e s').1 = Normal ∧ I (call (handler it) e s').2) →
  (∀ h b s', I s' → I (setPending h b s')) →
  (forEach call e snapshot s).1.1 = Normal
  ∧ I (forEach call e snapshot s).1.2.
Proof.
  revert s. induction snapshot as [|it rest IH]; intros s Hs Hcall Hflag;
    [done|].
  simpl. destruct (Hcall it s) as [Ho Hi]; [by left|done|].
  destruct (call (handler it) e s) as [o s1]; simpl in Ho, Hi. subst o.
  specialize (IH (setPending (handler it) false s1)).
  destruct (forEach call e rest _) as [[o2 s2] vs]; simpl in *.
  apply IH; [by apply Hflag| |done].
  intros it' s' Hin. apply Hcall. by right.
Qed.

Lemma mark_invariant (I : state D → Prop) snapshot s :
  I s → (∀ h b s', I s' → I (setPending h b s')) → I (mark snapshot s).
Proof.
  revert s. induction snapshot as [|it rest IH]; intros s Hs Hflag; [done|].
  simpl. apply IH; [by apply Hflag|done].
Qed.

Lemma publish_invariant (I : state D → Prop) fuel e s :
  I s →
  (∀ h s', h ∈ recipients e s → I s' →
     (invoke cname handle fuel h e s').1 = Normal
     ∧ I (invoke cname handle fuel h e s').2) →
  (∀ h b s', I s' → I (setPending h b s')) →
  (publish cname handle fuel e s).1.1 = Normal
  ∧ I (publish cname handle fuel e s).1.2.
Proof.
  intros Hs Hcall Hflag. rewrite publish_unfold.
  apply forEach_invariant; [by apply mark_invariant| |done].
  intros it s' Hit. by apply Hcall, list_elem_of_fmap_2.
Qed.


(** X5.  Once every record of the event's type has been unsubscribed,
    [publish] visits nothing and leaves the state as it is; once the records
    of one kind have been unsubscribed from that type, no handler of that
    kind is visited. *)
Theorem publish_after_unsubscribe fuel e s h :
  publish cname handle fuel e (unsubscribe cname (type e) None s)
    = (Normal, unsubscribe cname (type e) None s, [])
  ∧ (∀ r, r ∈ visited (publish cname handle fuel e
                         (unsubscribe cname (type e) (Some h) s)) →
          cname r ≠ cname h).
Proof.
  split.
  - rewrite publish_unfold. unfold matching, unsubscribe; simpl.
    rewrite list_filter_filter.
    by rewrite (filter_none _ (handlers s))
      by (intros it _ [? ?]; done).
  - intros r Hr.
    destruct (publish_visits_prefix cname handle fuel e
                (unsubscribe cname (type e) (Some h) s)) as (rest & Heq & _).
    assert (r ∈ recipients e (unsubscribe cname (type e) (Some h) s)) as Hin.
    { rewrite Heq. apply elem_of_app. by left. }
    unfold recipients, matching, unsubscribe in Hin; simpl in Hin.
    apply list_elem_of_fmap in Hin as (it & -> & Hit).
    apply list_elem_of_filter in Hit as [Ht Hit].
    apply list_elem_of_filter in Hit as [[Hne|Hne] _]; done.
Qed.


(** When a call of [publish] returns, no flag is up that was down. *)
Lemma run_flags_shrink (pub : Event → state D → outcome * state D) p s :
  (∀ e' s', (pub e' s').1 = Normal → pending (pub e' s').2 ⊆ pending s') →
  (run cname pub p s).1 = Normal →
  pending (run cname pub p s).2 ⊆ pending s.
Proof.
  intros Hpub. revert s.
  induction p as [| |t h k IH|t h k IH|e k IH|h k IH|k IH|d k IH];
    intros s Hr; simpl in *; try done.
  - rewrite <- (pending_subscribe cname t h s). by apply IH.
  - by apply (IH (unsubscribe cname t h s)).
  - specialize (Hpub e s). destruct (pub e s) as [[| |] s1]; simpl in *;
      [|done..].
    etrans; [by apply IH|by apply Hpub].
  - by apply IH.
  - by apply IH.
  - by apply (IH (setData d s)).
Qed.

Lemma forEach_flags_shrink call e snapshot s :
  (∀ h s', (call h e s').1 = Normal → pending (call h e s').2 ⊆ pending s') →
  (forEach call e snapshot s).1.1 = Normal →
  pending (forEach call e snapshot s).1.2
    ⊆ pending s ∖ list_to_set (handler <$> snapshot).
Proof.
  intros Hcall. revert s.
  induction snapshot as [|it rest IH]; intros s Ho; simpl in *.
  - set_solver.
  - specialize (Hcall (handler it) s).
    destruct (call (handler it) e s) as [[| |] s1]; simpl in *; [|done..].
    specialize (IH (setPending (handler it) false s1)).
    destruct (forEach call e rest _) as [[o2 s2] vs]; simpl in *.
    specialize (IH Ho). specialize (Hcall eq_refl). set_solver.
Qed.

Lemma invoke_flags_shrink fuel h e s :
  (invoke cname handle fuel h e s).1 = Normal →
  pending (invoke cname handle fuel h e s).2 ⊆ pending s.
Proof.
  revert h e s. induction fuel as [|fuel IH]; intros h e s; [done|].
  simpl. apply run_flags_shrink. intros e' s'.
  unfold publish_with. case_bool_decide; [done|].
  pose proof (forEach_flags_shrink (invoke cname handle fuel) e'
                (matching e' (handlers s')) (mark (matching e' (handlers s')) s'))
    as Hloop.
  destruct (mark_spec cname handle (matching e' (handlers s')) s') as (_ & _ & Hm).
  rewrite Hm in Hloop.
  specialize (Hloop (λ h' s'', IH h' e' s'')). revert Hloop.
  destruct (forEach _ e' _ _) as [[o s2] vs]; simpl.
  intros Hloop ->. etrans; [by apply Hloop|]. set_solver.
Qed.

(** X7.  For handler bodies as modelled here, which let what a nested
    [publish] throws through and leave the flags to the dispatcher, and with
    nested [publish] calls at any depth: when [publish] returns, every flag
    that is up was up before the call and belongs to a subscriber that no
    record of the event's type held when the call began. *)
Theorem publish_returns_flags_down fuel e s :
  (publish cname handle fuel e s).1.1 = Normal →
  pending (publish cname handle fuel e s).1.2
    ⊆ pending s ∖ list_to_set (subscribed_to (type e) (handlers s)).
Proof.
  rewrite <- recipients_subscribed_to, publish_unfold. intros Ho.
  pose proof (forEach_flags_shrink (invoke cname handle fuel) e
                (matching e (handlers s)) (mark (matching e (handlers s)) s))
    as Hloop.
  destruct (mark_spec cname handle (matching e (handlers s)) s) as (_ & _ & Hm).
  rewrite Hm in Hloop. unfold recipients.
  etrans; [apply Hloop; [intros; by apply invoke_flags_shrink|done]|].
  set_solver.
Qed.

End Invariants.

(** * The subscribers of the program *)

Lemma setStock_absent mid f ms :
  App.findMachine mid ms = None → App.setStock mid f ms = ms.
Proof.
  unfold App.findMachine. induction ms as [|m ms IH]; simpl; [done|].
  case_bool_decide; [done|]. intros Hf. by rewrite IH.
Qed.

Lemma findMachine_id mid ms m :
  App.findMachine mid ms = Some m → App.id m = mid.
Proof.
  unfold App.findMachine. intros [_ Hm]%find_some.
  by apply bool_decide_eq_true in Hm.
Qed.

Lemma findMachine_setStock_same mid f ms :
  App.findMachine mid (App.setStock mid f ms)
  = (λ m, {| App.stockLevel := f (App.stockLevel m); App.id := App.id m |})
      <$> App.findMachine mid ms.
Proof.
  unfold App.findMachine. induction ms as [|m ms IH]; simpl; [done|].
  case_bool_decide as Hm; simpl.
  - by rewrite bool_decide_eq_true_2.
  - by rewrite bool_decide_eq_false_2.
Qed.

Lemma findMachine_setStock_other mid mid' f ms :
  mid ≠ mid' →
  App.findMachine mid' (App.setStock mid f ms) = App.findMachine mid' ms.
Proof.
  unfold App.findMachine. intros Hne.
  induction ms as [|m ms IH]; simpl; [done|].
  case_bool_decide as Hm; simpl.
  - by rewrite !bool_decide_eq_false_2 by congruence.
  - by rewrite IH.
Qed.

Lemma setStock_ids mid f ms :
  App.id <$> App.setStock mid f ms = App.id <$> ms.
Proof.
  induction ms as [|m ms IH]; simpl; [done|].
  case_bool_decide; simpl; [done|]. by f_equal.
Qed.

(** X8.  [machine.stockLevel = ...] on the machine [find] returned: looking
    the same id up afterwards gives that machine with the new level, looking
    another id up gives what it gave before, and the machines keep their
    ids and their order. *)
Theorem setStock_findMachine mid mid' f ms :
  App.findMachine mid (App.setStock mid f ms)
    = (λ m, {| App.stockLevel := f (App.stockLevel m); App.id := App.id m |})
        <$> App.findMachine mid ms
  ∧ (mid ≠ mid' →
     App.findMachine mid' (App.setStock mid f ms) = App.findMachine mid' ms)
  ∧ App.id <$> App.setStock mid f ms = App.id <$> ms.
Proof.
  split_and!.
  - apply findMachine_setStock_same.
  - apply findMachine_setStock_other.
  - apply setStock_ids.
Qed.

(** What each [handle] of the program does to the state. *)
Lemma sale_handle_effect fuel q mid (s : state (list App.Machine)) :
  invoke App.cname App.handle (S fuel) App.saleSubscriber (App.sale q mid) s
  = (Normal, setData (App.setStock mid (λ l, l - q)%Z (data s)) s).
Proof.
  simpl. destruct (App.findMachine mid (data s)) eqn:Hf; [done|].
  rewrite setStock_absent by done. by destruct s.
Qed.

Lemma lowStock_handle_effect fuel q mid (s : state (list App.Machine)) :
  invoke App.cname App.handle (S fuel) App.lowStockWarningSubscriber
    (App.sale q mid) s
  = (Normal,
     match App.findMachine mid (data s) with
     | Some machine =>
         if App.checkStock
              (if isPending App.saleSubscriber s
               then App.stockLevel machine - q else App.stockLevel machine)%Z
         then unsubscribe App.cname "sale" (Some App.saleSubscriber) s
         else s
     | None => s
     end).
Proof.
  simpl. destruct (App.findMachine mid (data s)) as [m|]; [|done].
  simpl. by destruct (isPending _ s); simpl; destruct (App.checkStock _).
Qed.

Lemma refill_handle_effect fuel q mid (s : state (list App.Machine)) :
  invoke App.cname App.handle (S fuel) App.refillSubscriber
    (App.refill q mid) s
  = (Normal,
     match App.findMachine mid (data s) with
     | Some machine =>
         let s' := setData (App.setStock mid (λ l, l + q)%Z (data s)) s in
         if App.checkStock (App.stockLevel machine + q)
         then s' else subscribe App.cname "sale" App.saleSubscriber s'
     | None => s
     end).
Proof.
  simpl. destruct (App.findMachine mid (data s)) as [m|]; [|done].
  simpl. by destruct (App.checkStock _).
Qed.

(** A subscriber handed an event of the other class throws as soon as it
    has found the machine, before it changes anything; for an unknown
    machine it returns. *)
Lemma other_class_invoke fuel q mid (s : state (list App.Machine)) :
  invoke App.cname App.handle (S fuel) App.saleSubscriber (App.refill q mid) s
    = (match App.findMachine mid (data s) with
       | Some _ => Raised
       | None => Normal
       end, s)
  ∧ invoke App.cname App.handle (S fuel) App.refillSubscriber
      (App.sale q mid) s
    = (match App.findMachine mid (data s) with
       | Some _ => Raised
       | None => Normal
       end, s).
Proof.
  split; simpl; by destruct (App.findMachine mid (data s)).
Qed.

Lemma isPending_set_eq {D} h b (s : state D) :
  isPending h (setPending h b s) = b.
Proof.
  unfold isPending. destruct b; simpl.
  - apply bool_decide_eq_true. set_solver.
  - apply bool_decide_eq_false. set_solver.
Qed.

Lemma isPending_set_ne {D} h h' b (s : state D) :
  h ≠ h' → isPending h (setPending h' b s) = isPending h s.
Proof.
  intros Hne. unfold isPending. apply bool_decide_ext.
  destruct b; simpl; set_solver.
Qed.

(** The records [publish] loops over, read back from the recipients. *)
Lemma matching_of_recipients {Event D} `{IEvent Event} (e : Event)
    (s : state D) (rs : list ref) :
  recipients e s = rs →
  matching e (handlers s) = (λ h, {| htype := type e; handler := h |}) <$> rs.
Proof.
  unfold recipients, matching. intros <-.
  induction (handlers s) as [|it hs IH]; [done|].
  destruct (decide (htype it = type e)) as [Ht|Ht].
  - rewrite filter_cons_True by done. rewrite !fmap_cons, <- IH.
    f_equal. destruct it; simpl in *. by rewrite Ht.
  - by rewrite filter_cons_False.
Qed.

(** X9.  A subscriber registered under the type of the other event class
    makes [publish] throw.  When the sale handler is the first recipient of
    a refill for a known machine, its [handle] calls a method the event does
    not have: the exception leaves [publish] with no other recipient
    visited, the stock and the registry as they were, and the flags of all
    the recipients up. *)
Theorem mistyped_subscriber_throws fuel q mid
    (s : state (list App.Machine)) machine rest :
  0 < fuel →
  App.findMachine mid (data s) = Some machine →
  recipients (App.refill q mid) s = App.saleSubscriber :: rest →
  (publish App.cname App.handle fuel (App.refill q mid) s).1.1 = Raised
  ∧ visited (publish App.cname App.handle fuel (App.refill q mid) s)
    = [App.saleSubscriber]
  ∧ data (publish App.cname App.handle fuel (App.refill q mid) s).1.2 = data s
  ∧ handlers (publish App.cname App.handle fuel (App.refill q mid) s).1.2
    = handlers s
  ∧ pending (publish App.cname App.handle fuel (App.refill q mid) s).1.2
    = list_to_set (App.saleSubscriber :: rest) ∪ pending s.
Proof.
  intros Hfuel Hm Hr. destruct fuel as [|fuel]; [lia|].
  rewrite publish_unfold, (matching_of_recipients _ _ _ Hr).
  rewrite fmap_cons. cbn [forEach handler].
  destruct (mark_spec App.cname App.handle
              ({| htype := type (App.refill q mid);
                  handler := App.saleSubscriber |}
               :: ((λ h, {| htype := type (App.refill q mid); handler := h |})
                     <$> rest)) s) as (Hh & Hd & Hp).
  destruct (other_class_invoke fuel q mid
              (mark ({| htype := type (App.refill q mid);
                        handler := App.saleSubscriber |}
                     :: ((λ h, {| htype := type (App.refill q mid);
                                  handler := h |}) <$> rest)) s))
    as [-> _].
  rewrite Hd, Hm. cbn [fst snd visited fmap list_fmap v_handler].
  split_and!; [done..|].
  rewrite Hp. rewrite fmap_cons. cbn [handler].
  assert (handler <$> ((λ h, {| htype := type (App.refill q mid);
                                handler := h |}) <$> rest) = rest) as ->; [|done].
  clear. induction rest as [|r rest IH]; [done|].
  rewrite !fmap_cons. by rewrite IH.
Qed.

(** A sale delivered to the sale handler and to the low-stock handler. *)
Lemma publish_sale_two_recipients fuel q mid
    (s : state (list App.Machine)) machine :
  0 < fuel →
  App.findMachine mid (data s) = Some machine →
  recipients (App.sale q mid) s
    = [App.saleSubscriber; App.lowStockWarningSubscriber]
  ∨ recipients (App.sale q mid) s
    = [App.lowStockWarningSubscriber; App.saleSubscriber] →
  (publish App.cname App.handle fuel (App.sale q mid) s).1.1 = Normal
  ∧ data (publish App.cname App.handle fuel (App.sale q mid) s).1.2
    = App.setStock mid (λ l, l - q)%Z (data s)
  ∧ handlers (publish App.cname App.handle fuel (App.sale q mid) s).1.2
    = (if App.checkStock (App.stockLevel machine - q)
       then handlers (unsubscribe App.cname "sale" (Some App.saleSubscriber) s)
       else handlers s).
Proof.
  intros Hfuel Hm Horder. destruct fuel as [|fuel]; [lia|].
  rewrite publish_unfold.
  pose proof (findMachine_setStock_same mid (λ l, l - q)%Z (data s)) as Hsame.
  rewrite Hm in Hsame. simpl in Hsame.
  destruct Horder as [Hr|Hr];
    rewrite (matching_of_recipients _ _ _ Hr);
    cbn [fmap list_fmap forEach mark foldl handler].
  - rewrite sale_handle_effect.
    rewrite lowStock_handle_effect.
    cbn [data setData setPending]. rewrite Hsame.
    rewrite isPending_set_eq. cbn [App.stockLevel].
    by destruct (App.checkStock (App.stockLevel machine - q)).
  - rewrite lowStock_handle_effect.
    cbn [data setData setPending]. rewrite Hm.
    rewrite isPending_set_eq.
    destruct (App.checkStock (App.stockLevel machine - q));
      by rewrite sale_handle_effect.
Qed.

(** X10.  The low-stock decision does not depend on the order of delivery.
    With the sale handler and the low-stock handler as the two subscribers
    to "sale", in either order, and a sale for a known machine, level,
    quantity and difference being safe integers: [publish] returns with the
    stock lowered by the quantity sold; when the level after the sale is
    below 3 the registry is left without the "sale" records of the sale
    handler's kind, and when it is 3 or more the registry is left as it was.
    Served second, the low-stock handler reads the new level; served first,
    it sees the sale handler's flag up and subtracts the quantity itself. *)
Theorem low_stock_decision_either_order fuel q mid
    (s : state (list App.Machine)) machine :
  0 < fuel →
  App.findMachine mid (data s) = Some machine →
  App.safe (App.stockLevel machine) →
  App.safe q →
  App.safe (App.stockLevel machine - q) →
  subscribed_to "sale" (handlers s)
    = [App.saleSubscriber; App.lowStockWarningSubscriber]
  ∨ subscribed_to "sale" (handlers s)
    = [App.lowStockWarningSubscriber; App.saleSubscriber] →
  (publish App.cname App.handle fuel (App.sale q mid) s).1.1 = Normal
  ∧ data (publish App.cname App.handle fuel (App.sale q mid) s).1.2
    = App.setStock mid (λ l, l - q)%Z (data s)
  ∧ ((App.stockLevel machine - q < 3)%Z →
     handlers (publish App.cname App.handle fuel (App.sale q mid) s).1.2
     = filter (λ it, ¬ targeted App.cname "sale" (Some App.saleSubscriber) it)
         (handlers s))
  ∧ ((3 ≤ App.stockLevel machine - q)%Z →
     handlers (publish App.cname App.handle fuel (App.sale q mid) s).1.2
     = handlers s).
Proof.
  intros Hfuel Hm _ _ _ Hsub.
  destruct (publish_sale_two_recipients fuel q mid s machine Hfuel Hm)
    as (Ho & Hd & Hh).
  { by rewrite !recipients_subscribed_to. }
  unfold App.checkStock in Hh.
  split_and!; [done|done| |].
  - intros Hlow. rewrite Hh, bool_decide_eq_true_2 by done.
    apply handlers_unsubscribe.
  - intros Hhigh. rewrite Hh, bool_decide_eq_false_2 by lia. done.
Qed.

(** A sale delivered to low-stock handlers only. *)
Lemma publish_sale_low_stock_only fuel q mid
    (s : state (list App.Machine)) :
  0 < fuel →
  (∀ h, h ∈ recipients (App.sale q mid) s →
        h = App.lowStockWarningSubscriber) →
  (publish App.cname App.handle fuel (App.sale q mid) s).1.1 = Normal
  ∧ data (publish App.cname App.handle fuel (App.sale q mid) s).1.2 = data s.
Proof.
  intros Hfuel Hlow. destruct fuel as [|fuel]; [lia|].
  apply (publish_invariant App.cname App.handle (λ s', data s' = data s));
    [done| |done].
  intros h s' Hh Hs'. rewrite (Hlow h Hh), lowStock_handle_effect.
  split; [done|]. cbn [snd].
  destruct (App.findMachine mid (data s')); [|done].
  by destruct (App.checkStock _).
Qed.

(** X11.  While no sale handler is subscribed (the recipients of a sale are
    low-stock handlers only), a sale changes no stock level, on any
    machine. *)
Theorem sales_ignored_without_sale_handler fuel q mid
    (s : state (list App.Machine)) :
  0 < fuel →
  (∀ h, h ∈ recipients (App.sale q mid) s →
        h = App.lowStockWarningSubscriber) →
  (publish App.cname App.handle fuel (App.sale q mid) s).1.1 = Normal
  ∧ data (publish App.cname App.handle fuel (App.sale q mid) s).1.2 = data s.
Proof. apply publish_sale_low_stock_only. Qed.

Lemma data_subscribe_eq {D} cname t h (s : state D) :
  data (subscribe cname t h s) = data s.
Proof. by destruct (subscribe_cases cname t h s) as [-> | ->]. Qed.

Lemma cname_sale_inv h :
  App.cname h = App.cname App.saleSubscriber → h = App.saleSubscriber.
Proof. by destruct h as [|[|[|h]]]. Qed.

(** A refill delivered to the refill handler. *)
Lemma publish_refill_one_recipient fuel q mid
    (s : state (list App.Machine)) machine q' mid' :
  0 < fuel →
  App.findMachine mid (data s) = Some machine →
  recipients (App.refill q mid) s = [App.refillSubscriber] →
  (publish App.cname App.handle fuel (App.refill q mid) s).1.1 = Normal
  ∧ data (publish App.cname App.handle fuel (App.refill q mid) s).1.2
    = App.setStock mid (λ l, l + q)%Z (data s)
  ∧ ((3 ≤ App.stockLevel machine + q)%Z →
     App.saleSubscriber
       ∈ recipients (App.sale q' mid')
           (publish App.cname App.handle fuel (App.refill q mid) s).1.2).
Proof.
  intros Hfuel Hm Hr. destruct fuel as [|fuel]; [lia|].
  rewrite publish_unfold, (matching_of_recipients _ _ _ Hr).
  cbn [fmap list_fmap forEach mark foldl handler].
  rewrite refill_handle_effect. cbn [data setData setPending]. rewrite Hm.
  cbn zeta. unfold App.checkStock. case_bool_decide as Hlow; cbn [fst snd].
  - split_and!; [done..|lia].
  - split_and!; [done| |].
    + cbn [data setPending]. by rewrite data_subscribe_eq.
    + intros _.
      match goal with |- context [subscribe App.cname "sale" _ ?st] =>
        destruct (subscribe_registers App.cname "sale"
                    App.saleSubscriber st) as (it & Hin & Ht & Hk) end.
      apply cname_sale_inv in Hk.
      unfold recipients, matching. cbn [handlers setPending].
      apply list_elem_of_fmap. exists it. split; [done|].
      by apply list_elem_of_filter.
Qed.

(** X12.  With the refill handler as the one subscriber to "refill" and a
    refill for a known machine, level, quantity and sum being safe integers:
    [publish] returns with that machine's stock raised by the quantity; and
    when the new level is 3 or more, the sale handler is among the
    subscribers to "sale" afterwards, whether it had been unsubscribed or
    not. *)
Theorem refill_resubscribes_sale_handler fuel q mid
    (s : state (list App.Machine)) machine :
  0 < fuel →
  App.findMachine mid (data s) = Some machine →
  App.safe (App.stockLevel machine) →
  App.safe q →
  App.safe (App.stockLevel machine + q) →
  subscribed_to "refill" (handlers s) = [App.refillSubscriber] →
  (publish App.cname App.handle fuel (App.refill q mid) s).1.1 = Normal
  ∧ data (publish App.cname App.handle fuel (App.refill q mid) s).1.2
    = App.setStock mid (λ l, l + q)%Z (data s)
  ∧ ((3 ≤ App.stockLevel machine + q)%Z →
     App.saleSubscriber
       ∈ subscribed_to "sale"
           (handlers
              (publish App.cname App.handle fuel (App.refill q mid) s).1.2)).
Proof.
  intros Hfuel Hm _ _ _ Hsub.
  destruct (publish_refill_one_recipient fuel q mid s machine 0%Z mid
              Hfuel Hm) as (Ho & Hd & Hh).
  { by rewrite recipients_subscribed_to. }
  split_and!; [done|done|].
  intros Hhigh. specialize (Hh Hhigh).
  by rewrite recipients_subscribed_to in Hh.
Qed.

Lemma well_typed_filter (P : IHandler → Prop) `{!∀ it, Decision (P it)} hs :
  Forall App.well_typed hs → Forall App.well_typed (filter P hs).
Proof.
  rewrite !Forall_forall. intros Hall it [_ Hit]%list_elem_of_filter.
  by apply Hall.
Qed.

(** One [publish] of the program keeps the registry well typed and the
    machines in place, and returns. *)
Lemma publish_well_typed fuel e (s : state (list App.Machine)) :
  Forall App.well_typed (handlers s) →
  (publish App.cname App.handle (S fuel) e s).1.1 = Normal
  ∧ Forall App.well_typed
      (handlers (publish App.cname App.handle (S fuel) e s).1.2)
  ∧ App.id <$> data (publish App.cname App.handle (S fuel) e s).1.2
    = App.id <$> data s.
Proof.
  intros Htyped.
  apply (publish_invariant App.cname App.handle
           (λ s', Forall App.well_typed (handlers s')
                  ∧ App.id <$> data s' = App.id <$> data s));
    [done| |done].
  intros h s' Hh [Ht' Hid'].
  unfold recipients, matching in Hh.
  apply list_elem_of_fmap in Hh as (it & -> & Hit).
  apply list_elem_of_filter in Hit as [Htype Hit].
  rewrite Forall_forall in Htyped. specialize (Htyped it Hit).
  destruct e as [[q mid]|[q mid]];
    cbv [type App.event_IEvent MachineSaleEvent_IEvent
         MachineRefillEvent_IEvent MachineSaleEvent.type
         MachineRefillEvent.type] in Htype;
    destruct Htyped as [[Hs [-> | ->]]|[Hr ->]]; try congruence.
  - change (App.Sale _) with (App.sale q mid). rewrite sale_handle_effect.
    split_and!; [done..|]. cbn [snd data setData].
    by rewrite setStock_ids.
  - change (App.Sale _) with (App.sale q mid). rewrite lowStock_handle_effect.
    split; [done|]. cbn [snd].
    destruct (App.findMachine mid (data s')); [|done].
    destruct (App.checkStock _); [|done].
    split; [|done]. by apply well_typed_filter.
  - change (App.Refill _) with (App.refill q mid).
    rewrite refill_handle_effect. split; [done|]. cbn [snd].
    destruct (App.findMachine mid (data s')); [|done].
    cbn zeta.
    assert (App.id <$> App.setStock mid (λ l, l + q)%Z (data s')
            = App.id <$> data s) as Hids.
    { by rewrite setStock_ids. }
    destruct (App.checkStock _); [done|].
    rewrite data_subscribe_eq. split; [|done].
    match goal with |- context [subscribe App.cname "sale" _ ?st] =>
      destruct (subscribe_cases App.cname "sale" App.saleSubscriber st)
        as [-> | ->] end; [done|].
    cbn [handlers setHandlers setData]. apply Forall_app. split; [done|].
    apply Forall_singleton. left. split; [done|by left].
Qed.

(** X13.  The program cannot throw.  From a registry that holds every
    subscriber under the type its [handle] is written for, as the three
    [subscribe] calls of the program leave it, any sequence of sale and
    refill events is published to the end: every [publish] returns, the
    registry stays well typed whatever the handlers subscribe and
    unsubscribe, and no machine is added, removed or renamed. *)
Theorem program_never_throws fuel events (s : state (list App.Machine)) :
  0 < fuel →
  Forall App.well_typed (handlers s) →
  (App.publishAll fuel events s).1.1 = Normal
  ∧ Forall App.well_typed (handlers (App.publishAll fuel events s).1.2)
  ∧ App.id <$> data (App.publishAll fuel events s).1.2 = App.id <$> data s
  ∧ length (App.publishAll fuel events s).2 = length events.
Proof.
  intros Hfuel. destruct fuel as [|fuel]; [lia|].
  revert s. induction events as [|e events IH]; intros s Htyped; [done|].
  cbn [App.publishAll].
  destruct (publish_well_typed fuel e s Htyped) as (Ho & Ht & Hid).
  destruct (publish App.cname App.handle (S fuel) e s) as [[o s1] vs];
    simpl in Ho, Ht, Hid. subst o.
  specialize (IH s1 Ht).
  destruct (App.publishAll (S fuel) events s1) as [[o2 s2] vss]; simpl in *.
  destruct IH as (-> & ? & -> & ->). done.
Qed.

Lemma start_well_typed : Forall App.well_typed (handlers App.start).
Proof.
  change (handlers App.start) with
    [ {| htype := "sale"; handler := App.saleSubscriber |};
      {| htype := "sale"; handler := App.lowStockWarningSubscriber |};
      {| htype := "refill"; handler := App.refillSubscriber |} ].
  repeat constructor; unfold App.well_typed; simpl; tauto.
Qed.

(** * The program as a whole *)

Lemma findMachine_known mid ms :
  mid ∈ App.id <$> ms → ∃ m, App.findMachine mid ms = Some m.
Proof.
  unfold App.findMachine. induction ms as [|m ms IH]; simpl.
  - by intros ?%elem_of_nil.
  - intros [->|Hin]%elem_of_cons.
    + exists m. by rewrite bool_decide_eq_true_2.
    + case_bool_decide; [by exists m|by apply IH].
Qed.

(** A bound on the stock levels after the machine found has been changed. *)
Lemma setStock_bound (P Q : Z → Prop) mid f ms m :
  App.findMachine mid ms = Some m →
  Forall (λ m, P (App.stockLevel m)) ms →
  Q (f (App.stockLevel m)) →
  (∀ l, P l → Q l) →
  Forall (λ m, Q (App.stockLevel m)) (App.setStock mid f ms).
Proof.
  unfold App.findMachine. intros Hm Hall Hf HPQ.
  induction Hall as [|a ms Ha Hall IH]; simpl in *; [done|].
  case_bool_decide.
  - inversion Hm; subst. constructor; [done|].
    eapply Forall_impl; [exact Hall|]. intros; by apply HPQ.
  - constructor; [by apply HPQ|by apply IH].
Qed.

Lemma eventGenerator_generated random qtyDraw machineDraw :
  App.eventGenerator random qtyDraw machineDraw ∈ App.generated.
Proof.
  unfold App.eventGenerator, App.randomMachine, App.generated.
  repeat destruct (Qlt_le_dec _ _); cbn zeta;
    rewrite !elem_of_cons; tauto.
Qed.

(** X14.  Whatever the three draws, [eventGenerator] returns a sale of 1 or
    2 units or a refill of 3 or 5 units, and for one of the machines the
    program has created. *)
Theorem eventGenerator_range random qtyDraw machineDraw :
  App.eventGenerator random qtyDraw machineDraw ∈ App.generated
  ∧ ((type (App.eventGenerator random qtyDraw machineDraw) = "sale"
      ∧ (App.getSoldQuantity (App.eventGenerator random qtyDraw machineDraw)
           = Some 1%Z
         ∨ App.getSoldQuantity (App.eventGenerator random qtyDraw machineDraw)
           = Some 2%Z))
     ∨ (type (App.eventGenerator random qtyDraw machineDraw) = "refill"
        ∧ (App.getRefillQuantity
             (App.eventGenerator random qtyDraw machineDraw) = Some 3%Z
           ∨ App.getRefillQuantity
               (App.eventGenerator random qtyDraw machineDraw) = Some 5%Z)))
  ∧ is_Some (App.findMachine
               (machineId (App.eventGenerator random qtyDraw machineDraw))
               App.machines).
Proof.
  split; [apply eventGenerator_generated|].
  unfold App.eventGenerator, App.randomMachine.
  repeat destruct (Qlt_le_dec _ _); cbn; split; eauto.
Qed.

Lemma generated_cases e :
  e ∈ App.generated →
  ∃ q mid, mid ∈ App.id <$> App.machines
    ∧ ((e = App.sale q mid ∧ (1 ≤ q ≤ 2)%Z)
       ∨ (e = App.refill q mid ∧ (3 ≤ q)%Z)).
Proof.
  unfold App.generated. rewrite !elem_of_cons, elem_of_nil.
  intros Hin.
  repeat (destruct Hin as [->|Hin]); try done;
    eexists _, _; (split; [|first [left; split; [reflexivity|lia]
                                  |right; split; [reflexivity|lia]]]);
    cbn; rewrite !elem_of_cons; tauto.
Qed.

Lemma matching_sale_registry0 q mid :
  matching (App.sale q mid) App.registry0
  = [ {| htype := "sale"; handler := App.saleSubscriber |};
      {| htype := "sale"; handler := App.lowStockWarningSubscriber |} ].
Proof. reflexivity. Qed.

Lemma matching_sale_registry1 q mid :
  matching (App.sale q mid) App.registry1
  = [ {| htype := "sale"; handler := App.lowStockWarningSubscriber |} ].
Proof. reflexivity. Qed.

Lemma matching_refill_registry0 q mid :
  matching (App.refill q mid) App.registry0
  = [ {| htype := "refill"; handler := App.refillSubscriber |} ].
Proof. reflexivity. Qed.

Lemma matching_refill_registry1 q mid :
  matching (App.refill q mid) App.registry1
  = [ {| htype := "refill"; handler := App.refillSubscriber |} ].
Proof. reflexivity. Qed.

(** One more generated event, while fewer than five have been published. *)
Lemma after_step k e (s : state (list App.Machine)) :
  k < 5 → e ∈ App.generated → App.after k s →
  (publish App.cname App.handle 1 e s).1.1 = Normal
  ∧ App.after (S k) (publish App.cname App.handle 1 e s).1.2.
Proof.
  intros Hk He (Hids & Hs).
  apply generated_cases in He as (q & mid & Hmid & He).
  rewrite <- Hids in Hmid.
  destruct (findMachine_known mid (data s) Hmid) as [m Hm].
  rewrite publish_unfold. unfold App.after.
  destruct Hs as [(Hreg & Hst)|[(Hk4 & Hreg & Hst)|(Hk5 & _)]]; [| |lia];
    destruct He as [(-> & Hq)|(-> & Hq)]; rewrite Hreg.
  - rewrite matching_sale_registry0.
    cbn [forEach mark foldl handler].
    rewrite sale_handle_effect, lowStock_handle_effect.
    cbn [data setData setPending].
    rewrite findMachine_setStock_same, Hm. cbn [fmap option_fmap option_map].
    rewrite isPending_set_eq. cbn [App.stockLevel].
    pose proof (Hst' := Hst). rewrite Forall_forall in Hst'.
    assert (m ∈ data s) as Hin.
    { unfold App.findMachine in Hm. apply find_some in Hm as [Hm _].
      by apply list_elem_of_In. }
    destruct (Hst' m Hin) as [Hm3 Hmk].
    unfold App.checkStock. case_bool_decide as Hlow;
      cbn [fst snd data handlers setData setPending unsubscribe setHandlers].
    + split; [done|]. split; [by rewrite setStock_ids|].
      right. left. rewrite Hreg. split_and!; [lia|reflexivity|].
      apply (setStock_bound (λ l, 3 ≤ l ∧ 10 - 2 * Z.of_nat k ≤ l)%Z
               (λ l, 1 ≤ l)%Z mid _ (data s) m Hm Hst); [lia|].
      intros l [? ?]. lia.
    + split; [done|]. split; [by rewrite setStock_ids|].
      left. rewrite Hreg. split; [done|].
      apply (setStock_bound (λ l, 3 ≤ l ∧ 10 - 2 * Z.of_nat k ≤ l)%Z
               (λ l, 3 ≤ l ∧ 10 - 2 * Z.of_nat (S k) ≤ l)%Z mid _
               (data s) m Hm Hst); [lia|].
      intros l [? ?]. lia.
  - rewrite matching_refill_registry0.
    cbn [forEach mark foldl handler].
    rewrite refill_handle_effect.
    cbn [data setData setPending]. rewrite Hm. cbn zeta.
    pose proof (Hst' := Hst). rewrite Forall_forall in Hst'.
    assert (m ∈ data s) as Hin.
    { unfold App.findMachine in Hm. apply find_some in Hm as [Hm _].
      by apply list_elem_of_In. }
    destruct (Hst' m Hin) as [Hm3 Hmk].
    unfold App.checkStock. rewrite bool_decide_eq_false_2 by lia.
    match goal with |- context [subscribe App.cname "sale" _ ?st] =>
      rewrite (subscribe_same_kind_first App.cname "sale" App.saleSubscriber
                 st [] {| htype := "sale"; handler := App.saleSubscriber |}
                 [ {| htype := "sale";
                      handler := App.lowStockWarningSubscriber |};
                   {| htype := "refill"; handler := App.refillSubscriber |} ]);
        [|exact Hreg|by intros it ?%elem_of_nil|done|done] end.
    cbn [fst snd data handlers setData setPending].
    split; [done|]. split; [by rewrite setStock_ids|].
    left. split; [done|].
    apply (setStock_bound (λ l, 3 ≤ l ∧ 10 - 2 * Z.of_nat k ≤ l)%Z
             (λ l, 3 ≤ l ∧ 10 - 2 * Z.of_nat (S k) ≤ l)%Z mid _
             (data s) m Hm Hst); [lia|].
    intros l [? ?]. lia.
  - rewrite matching_sale_registry1.
    cbn [forEach mark foldl handler].
    rewrite lowStock_handle_effect.
    cbn [data setData setPending]. rewrite Hm.
    destruct (App.checkStock _);
      cbn [fst snd data handlers setData setPending unsubscribe setHandlers];
      (split; [done|]); (split; [done|]);
      right; left; rewrite Hreg; (split_and!; [lia|reflexivity|done]).
  - rewrite matching_refill_registry1.
    cbn [forEach mark foldl handler].
    rewrite refill_handle_effect.
    cbn [data setData setPending]. rewrite Hm. cbn zeta.
    pose proof (Hst' := Hst). rewrite Forall_forall in Hst'.
    assert (m ∈ data s) as Hin.
    { unfold App.findMachine in Hm. apply find_some in Hm as [Hm _].
      by apply list_elem_of_In. }
    specialize (Hst' m Hin).
    unfold App.checkStock. rewrite bool_decide_eq_false_2 by lia.
    match goal with |- context [subscribe App.cname "sale" _ ?st] =>
      rewrite (subscribe_behind_other_kind App.cname "sale"
                 App.saleSubscriber st []
                 {| htype := "sale"; handler := App.lowStockWarningSubscriber |}
                 [ {| htype := "refill"; handler := App.refillSubscriber |} ]);
        [|exact Hreg|by intros it ?%elem_of_nil|done|done] end.
    cbn [fst snd data handlers setData setPending setHandlers].
    split; [done|]. split; [by rewrite setStock_ids|].
    right. right. rewrite Hreg. split_and!; [lia|reflexivity|].
    apply (setStock_bound (λ l, 1 ≤ l)%Z (λ l, 1 ≤ l)%Z mid _ (data s) m Hm Hst);
      [lia|done].
Qed.

Lemma after_events events k (s : state (list App.Machine)) :
  k + length events ≤ 5 →
  Forall (λ e, e ∈ App.generated) events →
  App.after k s →
  (App.publishAll 1 events s).1.1 = Normal
  ∧ App.after (k + length events) (App.publishAll 1 events s).1.2.
Proof.
  revert k s. induction events as [|e events IH]; intros k s Hlen Hgen Hs.
  - simpl. by rewrite Nat.add_0_r.
  - apply Forall_cons in Hgen as [He Hgen]. simpl in Hlen.
    destruct (after_step k e s) as [Ho Hs1]; [lia|done|done|].
    cbn [App.publishAll].
    destruct (publish App.cname App.handle 1 e s) as [[o s1] vs];
      simpl in Ho, Hs1. subst o.
    specialize (IH (S k) s1).
    destruct (App.publishAll 1 events s1) as [[o2 s2] vss]; simpl in *.
    replace (k + S (length events)) with (S k + length events) by lia.
    apply IH; [lia|done|done].
Qed.

Lemma start_after : App.after 0 App.start.
Proof.
  split; [done|]. left. split; [done|].
  repeat constructor; simpl; lia.
Qed.

Lemma registries_unique_kinds hs :
  hs = App.registry0 ∨ hs = App.registry1 ∨ hs = App.registry2 →
  unique_kinds App.cname hs.
Proof.
  intros [-> | [-> | ->]] i j a b Hi Hj Ht Hk;
    destruct i as [|[|[|i]]]; destruct j as [|[|[|j]]];
    simpl in Hi, Hj; simplify_eq; done.
Qed.

(** X15.  The program as written, with its five events: whatever the
    draws, all five [publish] calls return, every machine ends with a stock
    level of 1 or more, and the registry never comes to hold two records for
    one (type, kind) pair: the low-stock handler needs four sales to
    unsubscribe the sale handler, and a fifth event can subscribe it again
    once. *)
Theorem five_events_keep_stock_and_registry (d1 d2 d3 d4 d5 : Q * Q * Q) :
  (App.program d1 d2 d3 d4 d5).1.1 = Normal
  ∧ Forall (λ m, (1 ≤ App.stockLevel m)%Z)
      (data (App.program d1 d2 d3 d4 d5).1.2)
  ∧ App.id <$> data (App.program d1 d2 d3 d4 d5).1.2 = ["001"; "002"; "003"]
  ∧ unique_kinds App.cname (handlers (App.program d1 d2 d3 d4 d5).1.2).
Proof.
  unfold App.program.
  destruct (after_events
              ((λ d : Q * Q * Q, App.eventGenerator d.1.1 d.1.2 d.2)
                 <$> [d1; d2; d3; d4; d5]) 0 App.start)
    as (Ho & Hids & Hs); [simpl; lia| |apply start_after|].
  { cbn [fmap list_fmap].
    repeat (apply Forall_cons; split; [apply eventGenerator_generated|]).
    apply Forall_nil_2. }
  split_and!; [done| |done|].
  - destruct Hs as [(_ & Hst)|[(_ & _ & Hst)|(_ & _ & Hst)]]; try done.
    eapply Forall_impl; [exact Hst|]. simpl. intros m [? ?]. lia.
  - apply registries_unique_kinds.
    destruct Hs as [(? & _)|[(_ & ? & _)|(_ & ? & _)]]; auto.
Qed.

(** * The first version and the later one *)

Lemma stockAll_absent mid f ms :
  mid ∉ App.id <$> ms → V0.stockAll mid f ms = ms.
Proof.
  unfold V0.stockAll. induction ms as [|m ms IH]; [done|].
  rewrite !fmap_cons, not_elem_of_cons. intros [Hne Hms].
  rewrite bool_decide_eq_false_2 by done. f_equal. by apply IH.
Qed.

Lemma stockAll_setStock mid f ms :
  NoDup (App.id <$> ms) → V0.stockAll mid f ms = App.setStock mid f ms.
Proof.
  induction ms as [|m ms IH]; [done|].
  rewrite fmap_cons, NoDup_cons. intros [Hm Hms].
  unfold V0.stockAll. rewrite fmap_cons. simpl.
  case_bool_decide as Hid.
  - f_equal. apply stockAll_absent. by rewrite <- Hid.
  - f_equal. by apply IH.
Qed.

(** X16.  With machine ids that are all different, as the program's are,
    the loop of the first version's handlers over all the machines and the
    [find] of the later version change the same machine in the same way: a
    sale or a refill handled by either version leaves the same stock
    levels. *)
Theorem versions_change_same_machine fuel q mid
    (s : state (list App.Machine)) :
  NoDup (App.id <$> data s) →
  V0.MachineSaleSubscriber_handle (App.sale q mid) (data s)
    = Some (data (invoke App.cname App.handle (S fuel) App.saleSubscriber
                    (App.sale q mid) s).2)
  ∧ V0.MachineRefillSubscriber_handle (App.refill q mid) (data s)
    = Some (data (invoke App.cname App.handle (S fuel) App.refillSubscriber
                    (App.refill q mid) s).2).
Proof.
  intros Hnd. rewrite sale_handle_effect, refill_handle_effect.
  unfold V0.MachineSaleSubscriber_handle, V0.MachineRefillSubscriber_handle.
  cbn [App.getSoldQuantity App.getRefillQuantity App.sale App.refill
       MachineSaleEvent.getSoldQuantity MachineRefillEvent.getRefillQuantity
       MachineSaleEvent._sold MachineRefillEvent._refill snd data setData].
  rewrite !stockAll_setStock by done. split; [done|]. f_equal.
  destruct (App.findMachine mid (data s)) eqn:Hf.
  - cbn zeta. destruct (App.checkStock _); [done|].
    by rewrite data_subscribe_eq.
  - by rewrite setStock_absent.
Qed.

(** X17.  While the sale handler is subscribed, the later version does to
    the stock what the first version did: for a sale on a known machine,
    with machine ids all different, the first version's [publish] on its
    registry and the later version's [publish] with the sale handler and the
    low-stock handler as recipients both return and leave the same stock
    levels. *)
Theorem versions_agree_on_sale fuel q mid
    (s0 s1 : state (list App.Machine)) :
  0 < fuel →
  handlers s0 = handlers V0.start →
  recipients (App.sale q mid) s1
    = [App.saleSubscriber; App.lowStockWarningSubscriber]
  ∨ recipients (App.sale q mid) s1
    = [App.lowStockWarningSubscriber; App.saleSubscriber] →
  data s0 = data s1 →
  NoDup (App.id <$> data s1) →
  mid ∈ App.id <$> data s1 →
  (V0.publish (App.sale q mid) s0).1.1 = Normal
  ∧ (publish App.cname App.handle fuel (App.sale q mid) s1).1.1 = Normal
  ∧ data (V0.publish (App.sale q mid) s0).1.2
    = data (publish App.cname App.handle fuel (App.sale q mid) s1).1.2
  ∧ (V0.publish (App.sale q mid) s0).2 = [V0.saleSubscriber].
Proof.
  intros Hfuel Hreg Hrec Hdata Hnd Hmid.
  destruct (findMachine_known mid (data s1) Hmid) as [m Hm].
  destruct (publish_sale_two_recipients fuel q mid s1 m Hfuel Hm Hrec)
    as (Ho & Hd & _).
  rewrite Ho, Hd.
  unfold V0.publish. rewrite Hreg.
  change (matching (App.sale q mid) (handlers V0.start))
    with [ {| htype := "sale"; handler := V0.saleSubscriber |} ].
  cbn. rewrite Hdata. by rewrite stockAll_setStock.
Qed.

(** ** The properties above, on the program and on the test doubles *)

Lemma subscribe_twice_on_fresh_type_empty :
  subscribe Scenario.cname "x" Scenario.A
    (subscribe Scenario.cname "x" Scenario.A Scenario.empty)
  = subscribe Scenario.cname "x" Scenario.A Scenario.empty
  ∧ filter (λ it, htype it = "x")
      (handlers (subscribe Scenario.cname "x" Scenario.A Scenario.empty))
    = [{| htype := "x"; handler := Scenario.A |}].
Proof.
  apply (subscribe_twice_on_fresh_type Scenario.cname "x" Scenario.A
           Scenario.empty).
  by intros it ?%elem_of_nil.
Defined.


Lemma publish_returns_flags_down_nested :
  (publish Scenario.cname Scenario.a_relays 2 Scenario.x
     (setPending 7 true Scenario.abc_cy)).1.1 = Normal
  ∧ pending (publish Scenario.cname Scenario.a_relays 2 Scenario.x
               (setPending 7 true Scenario.abc_cy)).1.2
      ⊆ {[ 7 ]}.
Proof.
  split; [by vm_compute|].
  etrans;
    [apply (publish_returns_flags_down Scenario.cname Scenario.a_relays 2
              Scenario.x (setPending 7 true Scenario.abc_cy)); by vm_compute|].
  apply (bool_decide_unpack _). by vm_compute.
Defined.

Lemma low_stock_decision_at_start :
  (publish App.cname App.handle 1 (App.sale 1 "001") App.start).1.1 = Normal
  ∧ data (publish App.cname App.handle 1 (App.sale 1 "001") App.start).1.2
    = [ {| App.stockLevel := 9; App.id := "001" |};
        {| App.stockLevel := 10; App.id := "002" |};
        {| App.stockLevel := 10; App.id := "003" |} ]
  ∧ handlers (publish App.cname App.handle 1 (App.sale 1 "001") App.start).1.2
    = handlers App.start.
Proof.
  destruct (low_stock_decision_either_order 1 1 "001" App.start
              {| App.stockLevel := 10; App.id := "001" |})
    as (Ho & Hd & _ & Hh);
    [lia|reflexivity|unfold App.safe; simpl; lia..|left; reflexivity|].
  split_and!; [exact Ho|exact Hd|]. apply Hh. simpl. lia.
Defined.

Lemma sales_ignored_on_registry1 :
  (publish App.cname App.handle 1 (App.sale 2 "002")
     (setHandlers App.registry1 App.start)).1.1 = Normal
  ∧ data (publish App.cname App.handle 1 (App.sale 2 "002")
            (setHandlers App.registry1 App.start)).1.2
    = data (setHandlers App.registry1 App.start).
Proof.
  apply (sales_ignored_without_sale_handler 1 2 "002"
           (setHandlers App.registry1 App.start)); [lia|].
  intros h.
  assert (recipients (App.sale 2 "002") (setHandlers App.registry1 App.start)
          = [App.lowStockWarningSubscriber]) as -> by (by vm_compute).
  by intros ->%list_elem_of_singleton.
Defined.

Lemma refill_resubscribes_on_registry1 :
  (publish App.cname App.handle 1 (App.refill 3 "001")
     (setHandlers App.registry1 App.start)).1.1 = Normal
  ∧ App.saleSubscriber
      ∈ subscribed_to "sale"
          (handlers (publish App.cname App.handle 1 (App.refill 3 "001")
                       (setHandlers App.registry1 App.start)).1.2).
Proof.
  destruct (refill_resubscribes_sale_handler 1 3 "001"
              (setHandlers App.registry1 App.start)
              {| App.stockLevel := 10; App.id := "001" |})
    as (Ho & _ & Hh);
    [lia|reflexivity|unfold App.safe; simpl; lia..|reflexivity|].
  split; [exact Ho|]. apply Hh. simpl. lia.
Defined.

Lemma program_never_throws_start :
  (App.publishAll 1 [App.sale 2 "001"; App.refill 5 "002"] App.start).1.1
    = Normal.
Proof.
  apply (program_never_throws 1 [App.sale 2 "001"; App.refill 5 "002"]
           App.start); [lia|apply start_well_typed].
Defined.

Lemma versions_change_same_machine_start :
  V0.MachineSaleSubscriber_handle (App.sale 2 "003") (data App.start)
  = Some (data (invoke App.cname App.handle 1 App.saleSubscriber
                  (App.sale 2 "003") App.start).2).
Proof.
  apply (versions_change_same_machine 0 2 "003" App.start).
  apply (bool_decide_unpack _). by vm_compute.
Defined.

Lemma versions_agree_on_sale_start :
  data (V0.publish (App.sale 2 "003") V0.start).1.2
  = data (publish App.cname App.handle 1 (App.sale 2 "003") App.start).1.2.
Proof.
  apply (versions_agree_on_sale 1 2 "003" V0.start App.start);
    [lia|reflexivity|left; reflexivity|reflexivity| |].
  - apply (bool_decide_unpack _). by vm_compute.
  - apply (bool_decide_unpack _). by vm_compute.
Defined.

(** * More on the registry and on the subscribers *)

Lemma find_first {A} (f : A → bool) (l : list A) x :
  List.find f l = Some x →
  ∃ pre post, l = pre ++ x :: post ∧ (∀ y, y ∈ pre → f y = false) ∧ f x = true.
Proof.
  induction l as [|a l IH]; simpl; [done|].
  destruct (f a) eqn:Ha.
  - intros [= ->]. exists [], l. split_and!; [done| |done].
    by intros y ?%elem_of_nil.
  - intros (pre & post & -> & Hpre & Hx)%IH.
    exists (a :: pre), post. split_and!; [done| |done].
    intros y [->|Hy]%elem_of_cons; [done|by apply Hpre].
Qed.

(** X18.  What [subscribe] takes for a duplicate: the call leaves the
    registry as it is exactly when the first record of the given type holds
    a handler of the same kind as the one passed; a record of that type and
    kind further down the registry does not stop the push. *)
Theorem subscribe_noop_iff {D} cname (t : string) (h : ref) (s : state D) :
  handlers (subscribe cname t h s) = handlers s
  ↔ ∃ pre ex post,
      handlers s = pre ++ ex :: post
      ∧ (∀ it, it ∈ pre → htype it ≠ t)
      ∧ htype ex = t ∧ cname (handler ex) = cname h.
Proof.
  split.
  - unfold subscribe.
    destruct (List.find _ _) as [ex|] eqn:Hf.
    + case_bool_decide as Hk.
      * intros _. apply find_first in Hf as (pre & post & Hs & Hpre & Hex).
        apply bool_decide_eq_true in Hex.
        exists pre, ex, post. split_and!; [done| |done|done].
        intros it Hit. specialize (Hpre it Hit).
        by apply bool_decide_eq_false in Hpre.
      * simpl. intros Heq. apply (f_equal length) in Heq.
        rewrite length_app in Heq. simpl in Heq. lia.
    + simpl. intros Heq. apply (f_equal length) in Heq.
      rewrite length_app in Heq. simpl in Heq. lia.
  - intros (pre & ex & post & Hs & Hpre & Ht & Hk).
    by rewrite (subscribe_same_kind_first cname t h s pre ex post).
Qed.

(** Two sales in a row from the registry the program starts with, the
    first one bringing a machine below 3. *)
Lemma publish_sale_after_low_stock fuel q mid q' mid'
    (s : state (list App.Machine)) machine :
  0 < fuel →
  handlers s = App.registry0 →
  App.findMachine mid (data s) = Some machine →
  (App.stockLevel machine - q < 3)%Z →
  recipients (App.sale q' mid')
    (publish App.cname App.handle fuel (App.sale q mid) s).1.2
    = [App.lowStockWarningSubscriber]
  ∧ (publish App.cname App.handle fuel (App.sale q' mid')
       (publish App.cname App.handle fuel (App.sale q mid) s).1.2).1.1
    = Normal
  ∧ data (publish App.cname App.handle fuel (App.sale q' mid')
            (publish App.cname App.handle fuel (App.sale q mid) s).1.2).1.2
    = App.setStock mid (λ l, l - q)%Z (data s).
Proof.
  intros Hfuel Hreg Hm Hlow.
  destruct (publish_sale_two_recipients fuel q mid s machine Hfuel Hm)
    as (Ho & Hd & Hh).
  { left. unfold recipients. by rewrite Hreg. }
  unfold App.checkStock in Hh. rewrite bool_decide_eq_true_2 in Hh by done.
  simpl in Hh. rewrite Hreg in Hh.
  assert (recipients (App.sale q' mid')
            (publish App.cname App.handle fuel (App.sale q mid) s).1.2
          = [App.lowStockWarningSubscriber]) as Hrec.
  { unfold recipients. by rewrite Hh. }
  split; [done|].
  destruct (publish_sale_low_stock_only fuel q' mid'
              (publish App.cname App.handle fuel (App.sale q mid) s).1.2
              Hfuel) as [Ho' Hd'].
  { intros h. rewrite Hrec. by intros ->%list_elem_of_singleton. }
  by rewrite Ho', Hd', Hd.
Qed.

(** X19.  Low stock on one machine silences the sales on all of them.  From
    the registry the program starts with, once a sale (level, quantity and
    difference being safe integers) has brought a machine below 3, the
    low-stock handler is the only subscriber to "sale" left, and the next
    sale, on whichever machine and of whatever quantity, changes no stock
    level. *)
Theorem low_stock_silences_all_machines fuel q mid q' mid'
    (s : state (list App.Machine)) machine :
  0 < fuel →
  handlers s = App.registry0 →
  App.findMachine mid (data s) = Some machine →
  App.safe (App.stockLevel machine) →
  App.safe q →
  App.safe (App.stockLevel machine - q) →
  (App.stockLevel machine - q < 3)%Z →
  subscribed_to "sale"
    (handlers (publish App.cname App.handle fuel (App.sale q mid) s).1.2)
    = [App.lowStockWarningSubscriber]
  ∧ (publish App.cname App.handle fuel (App.sale q' mid')
       (publish App.cname App.handle fuel (App.sale q mid) s).1.2).1.1
    = Normal
  ∧ data (publish App.cname App.handle fuel (App.sale q' mid')
            (publish App.cname App.handle fuel (App.sale q mid) s).1.2).1.2
    = data (publish App.cname App.handle fuel (App.sale q mid) s).1.2
  ∧ data (publish App.cname App.handle fuel (App.sale q mid) s).1.2
    = App.setStock mid (λ l, l - q)%Z (data s).
Proof.
  intros Hfuel Hreg Hm _ _ _ Hlow.
  destruct (publish_sale_after_low_stock fuel q mid q' mid' s machine
              Hfuel Hreg Hm Hlow) as (Hrec & Ho & Hd).
  destruct (publish_sale_two_recipients fuel q mid s machine Hfuel Hm)
    as (_ & Hd1 & _).
  { left. unfold recipients. by rewrite Hreg. }
  split_and!; [|done| |done].
  - by rewrite recipients_subscribed_to in Hrec.
  - by rewrite Hd, Hd1.
Qed.

Lemma low_stock_silences_witness :
  subscribed_to "sale"
    (handlers (publish App.cname App.handle 1 (App.sale 2 "001")
                 (setData [ {| App.stockLevel := 4; App.id := "001" |};
                            {| App.stockLevel := 10; App.id := "002" |} ]
                    App.start)).1.2)
    = [App.lowStockWarningSubscriber]
  ∧ data (publish App.cname App.handle 1 (App.sale 1 "002")
            (publish App.cname App.handle 1 (App.sale 2 "001")
               (setData [ {| App.stockLevel := 4; App.id := "001" |};
                          {| App.stockLevel := 10; App.id := "002" |} ]
                  App.start)).1.2).1.2
    = [ {| App.stockLevel := 2; App.id := "001" |};
        {| App.stockLevel := 10; App.id := "002" |} ].
Proof.
  destruct (low_stock_silences_all_machines 1 2 "001" 1 "002"
              (setData [ {| App.stockLevel := 4; App.id := "001" |};
                         {| App.stockLevel := 10; App.id := "002" |} ]
                 App.start)
              {| App.stockLevel := 4; App.id := "001" |})
    as (Hsub & _ & Hsame & Hd);
    [lia|reflexivity|reflexivity|unfold App.safe; simpl; lia..|simpl; lia|].
  split; [exact Hsub|]. rewrite Hsame. exact Hd.
Defined.

Lemma mistyped_subscriber_throws_witness :
  (publish App.cname App.handle 1 (App.refill 3 "001")
     (subscribe App.cname "refill" App.saleSubscriber
        {| handlers := []; pending := ∅; data := App.machines |})).1.1
  = Raised.
Proof.
  apply (mistyped_subscriber_throws 1 3 "001"
           (subscribe App.cname "refill" App.saleSubscriber
              {| handlers := []; pending := ∅; data := App.machines |})
           {| App.stockLevel := 10; App.id := "001" |} []);
    [lia|reflexivity|reflexivity].
Defined.
